(** * HadesMem [examples/dump/filesystem.cpp]: the directory walker [DumpDir]
    and the per-file sniffing pipeline [DumpFile].

    The two C++ functions are embedded as computations in a small monad that
    threads the observable world (the chronological trace of output and of
    calls into the operating system, the library and the thread pool, plus the
    process-wide "current file path") and that can end in a C++ exception.
    Everything the functions only call (the file stream, the Win32 directory
    enumeration, [hadesmem::detail::IsDirectory], the thread pool, the PE
    library) is an oracle: a record of the answers those calls give. *)

From Stdlib Require Import ZArith List String Ascii Bool Arith Lia.
Import ListNotations.

Open Scope string_scope.
Open Scope Z_scope.
Open Scope list_scope.

(** ** Strings *)

(** [std::wstring]; wide characters are modelled by [ascii]. *)
Definition wstring := string.

Infix "+++" := String.append (right associativity, at level 60).

(** The double-quote character used in the progress messages. *)
Definition dquote : wstring := String (Ascii.ascii_of_nat 34) EmptyString.

(** ** Win32 error codes (winerror.h) *)

Definition DWORD := Z.

Definition ERROR_FILE_NOT_FOUND : DWORD := 2.
Definition ERROR_ACCESS_DENIED : DWORD := 5.
Definition ERROR_NO_MORE_FILES : DWORD := 18.
Definition ERROR_SHARING_VIOLATION : DWORD := 32.

(** ** Exceptions *)

(** What can be thrown, by the class the handlers of this file tell apart.
    [hadesmem::Error] derives from [std::exception] (and [boost::exception])
    and may carry an [ErrorCodeWinLast]; [std::bad_alloc] is what
    [std::vector::resize] throws when memory is exhausted; [StdException]
    stands for every other class derived from [std::exception]
    (for instance [std::length_error]); [NonStd] is a thrown object of a
    type that does not derive from [std::exception] (for instance an
    [int]). *)
Inductive exn : Type :=
| HadesmemError (what : string) (code : option DWORD)
| BadAlloc
| StdException (what : string)
| NonStd (value : Z).

(** [catch (std::bad_alloc const&)] *)
Definition is_bad_alloc (e : exn) : bool :=
  match e with
  | BadAlloc => true
  | HadesmemError _ _ | StdException _ | NonStd _ => false
  end.

(** [catch (std::exception const&)] *)
Definition is_std_exception (e : exn) : bool :=
  match e with
  | HadesmemError _ _ => true
  | BadAlloc => true
  | StdException _ => true
  | NonStd _ => false
  end.

(** [catch (hadesmem::Error const& e)]: [Some c] when the handler matches,
    [c] being [boost::get_error_info<hadesmem::ErrorCodeWinLast>(e)]. *)
Definition as_hadesmem_error (e : exn) : option (option DWORD) :=
  match e with
  | HadesmemError _ code => Some code
  | BadAlloc | StdException _ | NonStd _ => None
  end.

(** What a call into a library returns: a value or a thrown exception. *)
Inductive Result (A : Type) : Type :=
| Ok (a : A)
| Raise (e : exn).
Arguments Ok {A} a.
Arguments Raise {A} e.

(** ** Tasks and the observable trace *)

(** The closure [[cur_path]() { DumpFile(cur_path); }]: its only capture is the
    path. *)
Record Task : Type := mkTask { task_path : wstring }.

(** The two buffers [DumpFile] reads into. *)
Inductive ReadTarget : Type :=
| mz_buf    (** the two-byte [mz_buf] of the signature peek *)
| buf.      (** the full-size [buf] *)

Inductive Event : Type :=
| WriteNewline                          (** [WriteNewline(out)] *)
| WriteNormal (text : wstring)          (** [WriteNormal(out, text, 0)] *)
| WarnUnsupported                       (** [WarnForCurrentFile(kUnsupported)] *)
| CerrError (e : exn)                   (** ["\nError!\n" << diagnostic] on [std::cerr] *)
| WcerrCurrentFile (p : wstring)        (** ["\nCurrent file: " << p] on [std::wcerr] *)
| CallOpenFile (p : wstring)
| CallTellg
| CallSeekgBeg
| CallRead (target : ReadTarget) (n : Z)   (** [file.read(target.data(), n)] *)
| CallResize (n : Z)
| CallProcess
| CallPeFile (size : Z)
| CallNtHeaders
| CallDumpPeFile (p : wstring)
| CallWaitForSlot
| CallQueueTask (t : Task) (accepted : bool).

(** ** The world and the monad *)

Record World : Type := mkWorld {
  trace : list Event;            (** everything observable so far, oldest first *)
  current_file_path : wstring;   (** the global behind [Set/GetCurrentFilePath] *)
  queue_calls : nat              (** how many times [QueueTask] has been called *)
}.

Inductive Outcome (A : Type) : Type :=
| Ret (a : A)        (** normal completion *)
| Throw (e : exn)    (** a C++ exception is propagating *)
| OutOfFuel.         (** the model's recursion or loop bound was reached *)
Arguments Ret {A} a.
Arguments Throw {A} e.
Arguments OutOfFuel {A}.

Definition M (A : Type) : Type := World -> Outcome A * World.

Definition ret {A} (a : A) : M A := fun w => (Ret a, w).

Definition bind {A B} (c : M A) (k : A -> M B) : M B :=
  fun w =>
    match c w with
    | (Ret a, w') => k a w'
    | (Throw e, w') => (Throw e, w')
    | (OutOfFuel, w') => (OutOfFuel, w')
    end.

Definition throw {A} (e : exn) : M A := fun w => (Throw e, w).

Definition out_of_fuel {A} : M A := fun w => (OutOfFuel, w).

(** [try { body } catch (...) { handler }]; a handler for one class re-throws
    the exceptions it does not match. *)
Definition try_catch {A} (body : M A) (handler : exn -> M A) : M A :=
  fun w =>
    match body w with
    | (Throw e, w') => handler e w'
    | r => r
    end.

Notation "x <- c1 ;; c2" := (bind c1 (fun x => c2))
  (at level 61, c1 at next level, right associativity).
Notation "c1 ;; c2" := (bind c1 (fun _ => c2))
  (at level 61, right associativity).

Definition emit (e : Event) : M unit :=
  fun w => (Ret tt, mkWorld (trace w ++ [e]) (current_file_path w) (queue_calls w)).

(** Lift the answer of a library call. *)
Definition call {A} (r : Result A) : M A :=
  match r with
  | Ok a => ret a
  | Raise e => throw e
  end.

(** Modelled from the spec: [SetCurrentFilePath] and [GetCurrentFilePath] are
    declared in main.hpp and defined outside this file; the specification
    describes them as process-wide state that records the most recently
    attempted file path. *)
Definition SetCurrentFilePath (path : wstring) : M unit :=
  fun w => (Ret tt, mkWorld (trace w) path (queue_calls w)).

Definition GetCurrentFilePath : M wstring :=
  fun w => (Ret (current_file_path w), w).

(** [static_cast<std::uint32_t>(size)] on a 64-bit stream position. *)
Definition static_cast_uint32 (z : Z) : Z := z mod 2 ^ 32.

(** ** The file oracle *)

(** The answers one file gives to the calls [DumpFile] makes on it, in the
    order of the source. *)
Record FileEnv : Type := mkFileEnv {
  open_file : Result bool;            (** [OpenFile<char>]; [Ok b]: [b] is [!!file] *)
  tellg : Z;                          (** [file.tellg()] right after opening at end *)
  seekg_1 : bool;                     (** first [file.seekg(0, beg)] succeeded *)
  read_mz : option (ascii * ascii);   (** [file.read(mz_buf.data(), 2)] *)
  seekg_2 : bool;                     (** second [file.seekg(0, beg)] succeeded *)
  resize : Result unit;               (** [buf.resize(size)] *)
  read_all : option (list ascii);     (** [file.read(buf.data(), size)] *)
  process_ctor : Result unit;         (** [hadesmem::Process(GetCurrentProcessId())] *)
  pe_file_ctor : Result unit;         (** [hadesmem::PeFile(process, buf, Data, size)] *)
  nt_headers_ctor : Result unit;      (** [hadesmem::NtHeaders(process, pe_file)] *)
  dump_pe_file : Result unit          (** [DumpPeFile(process, pe_file, path)] *)
}.

(** ** [DumpFile] *)

Definition report (text : wstring) : M unit :=
  emit WriteNewline ;; emit (WriteNormal text).

(** The statements between [try {] and [} catch (...)] of [DumpFile]. *)
Definition DumpFile_body (f : FileEnv) (path : wstring) : M unit :=
  SetCurrentFilePath path ;;
  emit (CallOpenFile path) ;;
  file <- call (open_file f) ;;
  if negb file then report "Failed to open file."
  else
  emit CallTellg ;;
  let size := tellg f in
  if size <=? 0 then report "Empty or invalid file."
  else
  if negb (static_cast_uint32 size =? size)
  then report "File too large to be a valid PE."
  else
  emit CallSeekgBeg ;;
  if negb (seekg_1 f)
  then report "WARNING! Seeking to beginning of file failed (1)."
  else
  emit (CallRead mz_buf 2) ;;
  match read_mz f with
  | None => report "WARNING! Failed to read header signature."
  | Some (mz_buf_0, mz_buf_1) =>
  if negb (mz_buf_0 =? "M")%char || negb (mz_buf_1 =? "Z")%char
  then report "Not a PE file (Pass 1)."
  else
  emit CallSeekgBeg ;;
  if negb (seekg_2 f)
  then report "WARNING! Seeking to beginning of file failed (2)."
  else
  emit (CallResize size) ;;
  resized <- try_catch (call (resize f) ;; ret true)
               (fun e => if is_bad_alloc e
                         then report "WARNING! File too large." ;;
                              emit WarnUnsupported ;; ret false
                         else throw e) ;;
  if negb resized then ret tt
  else
  emit (CallRead buf size) ;;
  match read_all f with
  | None => report "WARNING! Failed to read file data."
  | Some data =>
  emit CallProcess ;;
  call (process_ctor f) ;;
  emit (CallPeFile size) ;;
  call (pe_file_ctor f) ;;
  emit CallNtHeaders ;;
  valid <- try_catch (call (nt_headers_ctor f) ;; ret true)
             (fun e => if is_std_exception e
                       then report "Not a PE file or wrong architecture (Pass 2)." ;;
                            ret false
                       else throw e) ;;
  if negb valid then ret tt
  else
  emit (CallDumpPeFile path) ;;
  call (dump_pe_file f)
  end
  end.

(** The [catch (...)] handler of [DumpFile]. *)
Definition DumpFile_handler (e : exn) : M unit :=
  emit (CerrError e) ;;
  current <- GetCurrentFilePath ;;
  if negb (current =? "")%string then emit (WcerrCurrentFile current)
  else ret tt.

Definition DumpFile (f : FileEnv) (path : wstring) : M unit :=
  try_catch (DumpFile_body f path) DumpFile_handler.

(** ** The operating system and the pool, as seen by [DumpDir] *)

(** One directory enumeration. [FindInvalid last_error]: [FindFirstFileW]
    returned an invalid handle and [GetLastError()] is [last_error].
    [FindValid first rest end_error]: [first] is [find_data.cFileName] after
    [FindFirstFileW], [rest] the names stored by the successive successful
    [FindNextFileW] calls, and [end_error] is [GetLastError()] after the
    [FindNextFileW] call that returned [FALSE]. *)
Inductive FindResult : Type :=
| FindInvalid (last_error : DWORD)
| FindValid (first : wstring) (rest : list wstring) (end_error : DWORD).

Record Env : Type := mkEnv {
  os_MakeExtendedPath : wstring -> wstring;   (** [hadesmem::detail::MakeExtendedPath] *)
  os_FindFirstFileW : wstring -> FindResult;  (** enumeration of a search pattern *)
  os_IsDirectory : wstring -> Result bool;    (** [hadesmem::detail::IsDirectory] *)
  os_IsSymlink : wstring -> Result bool;      (** [hadesmem::detail::IsSymlink] *)
  pool_accepts : nat -> bool;                 (** answer of the n-th [QueueTask] call *)
  os_file : wstring -> FileEnv                (** the file behind a path *)
}.

(** [std::wstring::back]. On an empty string C++ leaves the behaviour
    undefined; the usual implementations read the terminator, which is not a
    backslash: [None]. *)
Fixpoint back (s : wstring) : option ascii :=
  match s with
  | EmptyString => None
  | String c EmptyString => Some c
  | String _ s' => back s'
  end.

(** [std::wstring::pop_back] *)
Fixpoint pop_back (s : wstring) : wstring :=
  match s with
  | EmptyString => EmptyString
  | String _ EmptyString => EmptyString
  | String c s' => String c (pop_back s')
  end.

Definition ends_with_backslash (s : wstring) : bool :=
  match back s with
  | Some c => (c =? "\")%char
  | None => false
  end.

(** ** The pool *)

(** Modelled from the spec: [hadesmem::detail::ThreadPool] is defined outside
    this file. [WaitForSlot] blocks until a slot looks free and reserves
    nothing; [QueueTask] does not block and returns whether the task was
    accepted. The walker only observes the two calls and the boolean, which
    the oracle [pool_accepts] supplies call by call. *)
Definition WaitForSlot : M unit := emit CallWaitForSlot.

Definition QueueTask (env : Env) (task : Task) : M bool :=
  fun w =>
    let accepted := pool_accepts env (queue_calls w) in
    (Ret accepted,
     mkWorld (trace w ++ [CallQueueTask task accepted])
             (current_file_path w) (S (queue_calls w))).

(** [do { pool.WaitForSlot(); } while (!pool.QueueTask(task));] *)
Fixpoint submit (env : Env) (fuel : nat) (task : Task) : M unit :=
  match fuel with
  | O => out_of_fuel
  | S fuel' =>
      WaitForSlot ;;
      accepted <- QueueTask env task ;;
      if negb accepted then submit env fuel' task else ret tt
  end.

(** What the pool runs for an accepted task. *)
Definition run_task (env : Env) (task : Task) : M unit :=
  DumpFile (os_file env (task_path task)) (task_path task).

(** ** [DumpDir] *)

Definition IsDirectory (env : Env) (path : wstring) : M bool :=
  call (os_IsDirectory env path).

Definition IsSymlink (env : Env) (path : wstring) : M bool :=
  call (os_IsSymlink env path).

(** The [try] block of the enumeration loop; [rec] is the recursive call. *)
Definition entry_guarded (env : Env) (rec : wstring -> M unit) (fuel : nat)
    (cur_path : wstring) : M unit :=
  is_dir <- IsDirectory env cur_path ;;
  if is_dir then
    is_sym <- IsSymlink env cur_path ;;
    if is_sym then report "Skipping symlink."
    else rec cur_path
  else
    let task := mkTask cur_path in
    submit env fuel task.

Definition code_is (last_error_ptr : option DWORD) (code : DWORD) : bool :=
  match last_error_ptr with
  | Some last_error => last_error =? code
  | None => false
  end.

(** The [catch (hadesmem::Error const& e)] handler of the loop; returning
    normally is the [continue]. *)
Definition entry_handler (e : exn) : M unit :=
  match as_hadesmem_error e with
  | None => throw e
  | Some last_error_ptr =>
      if code_is last_error_ptr ERROR_SHARING_VIOLATION
      then report "Sharing violation."
      else if code_is last_error_ptr ERROR_ACCESS_DENIED
      then report "Access denied."
      else if code_is last_error_ptr ERROR_FILE_NOT_FOUND
      then report "File not found."
      else throw e
  end.

Definition current_path_of (env : Env) (path_real cur_file : wstring) : wstring :=
  os_MakeExtendedPath env (path_real +++ "\" +++ cur_file).

Definition current_path_message (cur_path : wstring) : wstring :=
  "Current path: " +++ dquote +++ cur_path +++ dquote +++ ".".

Definition announce_entry (cur_path : wstring) : M unit :=
  report (current_path_message cur_path).

(** One iteration of the [do ... while] body. *)
Definition dump_entry (env : Env) (rec : wstring -> M unit) (fuel : nat)
    (path_real cur_file : wstring) : M unit :=
  if (cur_file =? ".")%string || (cur_file =? "..")%string then ret tt
  else
    let cur_path := current_path_of env path_real cur_file in
    announce_entry cur_path ;;
    try_catch (entry_guarded env rec fuel cur_path) entry_handler.

(** The [do ... while (::FindNextFileW(...))] loop over the names the
    enumeration yields. *)
Fixpoint dump_entries (env : Env) (rec : wstring -> M unit) (fuel : nat)
    (path_real : wstring) (entries : list wstring) : M unit :=
  match entries with
  | [] => ret tt
  | cur_file :: more =>
      dump_entry env rec fuel path_real cur_file ;;
      dump_entries env rec fuel path_real more
  end.

Definition real_path (path : wstring) : wstring :=
  if ends_with_backslash path then pop_back path else path.

Definition entering_dir_message (path : wstring) : wstring :=
  "Entering dir: " +++ dquote +++ path +++ dquote +++ ".".

Definition announce_dir (path : wstring) : M unit :=
  report (entering_dir_message path).

(** After the loop: [GetLastError()] decides between the normal end of the
    enumeration and a failure of [FindNextFileW]. *)
Definition finish_enumeration (end_error : DWORD) : M unit :=
  if end_error =? ERROR_NO_MORE_FILES then ret tt
  else throw (HadesmemError "FindNextFile failed." (Some end_error)).

(** [fuel] bounds the depth of the recursion and the number of rounds of each
    admission loop. *)
Fixpoint DumpDir (env : Env) (fuel : nat) (path : wstring) : M unit :=
  match fuel with
  | O => out_of_fuel
  | S fuel' =>
      announce_dir path ;;
      let path_real := real_path path in
      match os_FindFirstFileW env (path_real +++ "\*") with
      | FindInvalid last_error =>
          if last_error =? ERROR_FILE_NOT_FOUND
          then report "Directory is empty."
          else if last_error =? ERROR_ACCESS_DENIED
          then report "Access denied to directory."
          else throw (HadesmemError "FindFirstFile failed." (Some last_error))
      | FindValid first rest end_error =>
          dump_entries env (DumpDir env fuel') fuel path_real (first :: rest) ;;
          finish_enumeration end_error
      end
  end.

(** ** Vocabulary of the specification *)

(** The events a computation adds to the trace when started in [w]. *)
Definition events_of {A} (c : M A) (w : World) : list Event :=
  skipn (List.length (trace w)) (trace (snd (c w))).

(** [DumpFile] returned normally from [w], having added [evs] to the trace
    and left [path] as the current file path. *)
Definition finished (w : World) (path : wstring) (evs : list Event)
    : Outcome unit * World :=
  (Ret tt, mkWorld (trace w ++ evs) path (queue_calls w)).

(** What the [catch (...)] handler of [DumpFile] writes for [e] when the
    current file path is [path]. *)
Definition caught_events (path : wstring) (e : exn) : list Event :=
  CerrError e :: (if (path =? "")%string then [] else [WcerrCurrentFile path]).

(** Representable as an unsigned 32-bit integer. *)
Definition fits_uint32 (z : Z) : Prop := 0 <= z <= 4294967295.

Inductive RejectReason : Type :=
| EmptyOrUnreadable
| TooLarge
| NoMagicSignature
| AllocationFailed
| TruncatedRead
| StructurallyInvalid.

(** Written after the specification, not after the source: the [SniffResult]
    rejection taxonomy is not a type of the source, which reports each
    rejection as a message and returns; this attaches to every message of
    [DumpFile] the reason the staged description of the sniffer gives for
    that stage. The two seek warnings have no reason there. *)
Definition rejection_of_report (text : wstring) : option RejectReason :=
  if (text =? "Failed to open file.")%string then Some EmptyOrUnreadable
  else if (text =? "Empty or invalid file.")%string then Some EmptyOrUnreadable
  else if (text =? "File too large to be a valid PE.")%string then Some TooLarge
  else if (text =? "WARNING! Failed to read header signature.")%string
  then Some TruncatedRead
  else if (text =? "Not a PE file (Pass 1).")%string then Some NoMagicSignature
  else if (text =? "WARNING! File too large.")%string then Some AllocationFailed
  else if (text =? "WARNING! Failed to read file data.")%string
  then Some TruncatedRead
  else if (text =? "Not a PE file or wrong architecture (Pass 2).")%string
  then Some StructurallyInvalid
  else None.

(** The calls the cheap stages are there to avoid. *)
Definition is_allocation (e : Event) : bool :=
  match e with CallResize _ => true | _ => false end.

Definition is_full_read (e : Event) : bool :=
  match e with CallRead buf _ => true | _ => false end.

Definition is_deep_parse (e : Event) : bool :=
  match e with CallNtHeaders | CallDumpPeFile _ => true | _ => false end.

(** A file for which every stage up to the full read succeeds. *)
Definition passes_early_stages (f : FileEnv) : Prop :=
  open_file f = Ok true /\
  0 < tellg f /\ fits_uint32 (tellg f) /\
  seekg_1 f = true /\
  read_mz f = Some ("M"%char, "Z"%char) /\
  seekg_2 f = true /\
  resize f = Ok tt /\
  (exists data, read_all f = Some data) /\
  process_ctor f = Ok tt /\
  pe_file_ctor f = Ok tt.

(** *** The pool protocol *)

(** The pool rejects exactly the next [k] calls of [QueueTask] counted from
    call number [n], and accepts the one after them. *)
Definition first_accept (env : Env) (n k : nat) : Prop :=
  (forall j, (j < k)%nat -> pool_accepts env (n + j)%nat = false) /\
  pool_accepts env (n + k)%nat = true.

(** The pool never rejects [K] calls in a row. *)
Definition pool_fair (env : Env) (K : nat) : Prop :=
  forall n, exists k, (k < K)%nat /\ pool_accepts env (n + k)%nat = true.

(** The events of an admission loop that is rejected [k] times. *)
Fixpoint rounds (task : Task) (k : nat) : list Event :=
  match k with
  | O => [CallWaitForSlot; CallQueueTask task true]
  | S k' => CallWaitForSlot :: CallQueueTask task false :: rounds task k'
  end.

Definition is_accepted (e : Event) : bool :=
  match e with CallQueueTask _ true => true | _ => false end.

(** *** The walk *)

Definition is_dot_entry (cur_file : wstring) : bool :=
  (cur_file =? ".")%string || (cur_file =? "..")%string.

Inductive Disposition : Type := Skip | Ignore | Fatal.

(** Written after the specification, not after the source: the error
    classifier of the walker, a single function there; the source decides
    inline, once after [FindFirstFileW] and once in the handler of the
    loop. *)
Definition ErrorClassifier (osCode : DWORD) : Disposition :=
  if osCode =? ERROR_FILE_NOT_FOUND then Skip
  else if osCode =? ERROR_ACCESS_DENIED then Skip
  else if osCode =? ERROR_SHARING_VIOLATION then Skip
  else if osCode =? ERROR_NO_MORE_FILES then Ignore
  else Fatal.

(** The reports by which the loop says that it skips an entry. *)
Definition skip_reports : list wstring :=
  ["Skipping symlink."; "Sharing violation."; "Access denied.";
   "File not found."].

(** The events [seg] of one iteration account for the entry [cur_file]: it is
    announced, and then recursed into, or submitted to the pool and accepted,
    or reported as skipped. *)
Definition entry_accounted (env : Env) (path_real cur_file : wstring)
    (seg : list Event) : Prop :=
  let cur_path := current_path_of env path_real cur_file in
  exists evs,
    seg = [WriteNewline; WriteNormal (current_path_message cur_path)] ++ evs /\
    (In (WriteNormal (entering_dir_message cur_path)) evs \/
     In (CallQueueTask (mkTask cur_path) true) evs \/
     exists text, In text skip_reports /\ In (WriteNormal text) evs).

(** The trace only grows. *)
Definition extends (w w' : World) : Prop :=
  exists evs, trace w' = trace w ++ evs.

(** The segments [segs], one per enumerated name, account for every entry
    that is not a dot entry; a dot entry has an empty segment. *)
Definition entries_accounted (env : Env) (path_real : wstring)
    (entries : list wstring) (segs : list (list Event)) : Prop :=
  Forall2 (fun cur_file seg =>
             if is_dot_entry cur_file then seg = []
             else entry_accounted env path_real cur_file seg)
          entries segs.

(** The directories below [path] that are not symlinks nest at most [d] deep;
    what lies behind a symlink, or behind an entry whose classification
    fails, does not count. *)
Inductive walk_bounded (env : Env) : nat -> wstring -> Prop :=
| walk_bounded_intro (d : nat) (path : wstring) :
    (forall first rest end_error cur_file,
        os_FindFirstFileW env (real_path path +++ "\*")
          = FindValid first rest end_error ->
        In cur_file (first :: rest) ->
        is_dot_entry cur_file = false ->
        os_IsDirectory env (current_path_of env (real_path path) cur_file)
          = Ok true ->
        os_IsSymlink env (current_path_of env (real_path path) cur_file)
          = Ok false ->
        walk_bounded env d (current_path_of env (real_path path) cur_file)) ->
    walk_bounded env (S d) path.

(** ** Concrete files *)

Definition w0 : World := mkWorld [] "" 0.

(** A text file of ten bytes starting with "hi". *)
Definition file_txt : FileEnv :=
  mkFileEnv (Ok true) 10 true (Some ("h"%char, "i"%char)) true (Ok tt)
            (Some []) (Ok tt) (Ok tt) (Ok tt) (Ok tt).

(** An empty file. *)
Definition file_empty : FileEnv :=
  mkFileEnv (Ok true) 0 true None true (Ok tt) None (Ok tt) (Ok tt) (Ok tt) (Ok tt).

(** A file of five gigabytes. *)
Definition file_huge : FileEnv :=
  mkFileEnv (Ok true) 5368709120 true (Some ("M"%char, "Z"%char)) true (Ok tt)
            (Some []) (Ok tt) (Ok tt) (Ok tt) (Ok tt).

(** A file with the MZ signature whose NT headers are rejected. *)
Definition file_bad_pe : FileEnv :=
  mkFileEnv (Ok true) 10 true (Some ("M"%char, "Z"%char)) true (Ok tt)
            (Some []) (Ok tt) (Ok tt)
            (Raise (HadesmemError "NT headers signature invalid." None)) (Ok tt).

(** A file with the MZ signature on which the NtHeaders constructor throws
    an object that is not a [std::exception]. *)
Definition file_nt_throws_int : FileEnv :=
  mkFileEnv (Ok true) 10 true (Some ("M"%char, "Z"%char)) true (Ok tt)
            (Some []) (Ok tt) (Ok tt) (Raise (NonStd 42)) (Ok tt).

(** A valid image on which the dumper throws. *)
Definition file_dump_throws : FileEnv :=
  mkFileEnv (Ok true) 10 true (Some ("M"%char, "Z"%char)) true (Ok tt)
            (Some []) (Ok tt) (Ok tt) (Ok tt) (Raise (StdException "boom")).

(** Files on which one of the two seeks fails. *)
Definition file_seek1_fails : FileEnv :=
  mkFileEnv (Ok true) 10 false (Some ("M"%char, "Z"%char)) true (Ok tt)
            (Some []) (Ok tt) (Ok tt) (Ok tt) (Ok tt).

Definition file_seek2_fails : FileEnv :=
  mkFileEnv (Ok true) 10 true (Some ("M"%char, "Z"%char)) false (Ok tt)
            (Some []) (Ok tt) (Ok tt) (Ok tt) (Ok tt).

(** ** Concrete directories *)

(** A tree with a symlink cycle: [C:\d] holds the real directory [sub], the
    file symlink [lnk] and the file [a.exe]; [C:\d\sub] holds the file
    [x.dll] and the directory symlink [back], which points to [C:\d], so that
    listing [C:\d\sub\back] lists [C:\d] again. The pool rejects every other
    call. *)
Definition env_cycle : Env :=
  mkEnv
    (fun p => p)
    (fun pattern =>
       if (pattern =? "C:\d\*")%string
       then FindValid "." [".."; "sub"; "lnk"; "a.exe"] ERROR_NO_MORE_FILES
       else if (pattern =? "C:\d\sub\*")%string
       then FindValid "." [".."; "back"; "x.dll"] ERROR_NO_MORE_FILES
       else if (pattern =? "C:\d\sub\back\*")%string
       then FindValid "." [".."; "sub"; "lnk"; "a.exe"] ERROR_NO_MORE_FILES
       else FindInvalid 3)
    (fun p => Ok ((p =? "C:\d\sub")%string || (p =? "C:\d\sub\back")%string))
    (fun p => Ok ((p =? "C:\d\sub\back")%string || (p =? "C:\d\lnk")%string))
    (fun n => Nat.odd n)
    (fun p => if (p =? "C:\d\a.exe")%string then file_bad_pe else file_txt).

(** A directory whose enumeration cannot start because of a sharing
    violation. *)
Definition env_locked : Env :=
  mkEnv (fun p => p) (fun _ => FindInvalid ERROR_SHARING_VIOLATION)
        (fun _ => Ok false) (fun _ => Ok false) (fun _ => true)
        (fun _ => file_txt).

(** A directory with no entry: [FindFirstFileW] finds no file. *)
Definition env_no_entry : Env :=
  mkEnv (fun p => p) (fun _ => FindInvalid ERROR_FILE_NOT_FOUND)
        (fun _ => Ok false) (fun _ => Ok false) (fun _ => true)
        (fun _ => file_txt).

(** A directory whose enumeration yields only the two dot entries. *)
Definition env_dots : Env :=
  mkEnv (fun p => p) (fun _ => FindValid "." [".."] ERROR_NO_MORE_FILES)
        (fun _ => Ok false) (fun _ => Ok false) (fun _ => true)
        (fun _ => file_txt).

(** A directory with a protected entry, whose attributes cannot be read with
    error [code], followed by a text file. *)
Definition env_protected (code : DWORD) : Env :=
  mkEnv (fun p => p)
        (fun _ => FindValid "." [".."; "protected"; "b.txt"] ERROR_NO_MORE_FILES)
        (fun p => if (p =? "C:\d\protected")%string
                  then Raise (HadesmemError "GetFileAttributes failed." (Some code))
                  else Ok false)
        (fun _ => Ok false) (fun _ => true)
        (fun _ => file_txt).

(** ** Vocabulary of the further properties *)

(** The calls of [DumpFile] in the order of the source, for a file of [size]
    bytes. *)
Definition pipeline (path : wstring) (size : Z) : list Event :=
  [CallOpenFile path; CallTellg; CallSeekgBeg; CallRead mz_buf 2; CallSeekgBeg;
   CallResize size; CallRead buf size; CallProcess; CallPeFile size;
   CallNtHeaders; CallDumpPeFile path].

(** Calls into the stream, the PE library, the dumper or the pool. *)
Definition is_call (e : Event) : bool :=
  match e with
  | CallOpenFile _ | CallTellg | CallSeekgBeg | CallRead _ _ | CallResize _
  | CallProcess | CallPeFile _ | CallNtHeaders | CallDumpPeFile _
  | CallWaitForSlot | CallQueueTask _ _ => true
  | WriteNewline | WriteNormal _ | WarnUnsupported | CerrError _
  | WcerrCurrentFile _ => false
  end.

(** A message on the output stream or an error on [std::cerr]. *)
Definition is_diagnostic (e : Event) : bool :=
  match e with
  | WriteNormal _ | CerrError _ => true
  | _ => false
  end.

(** Every [QueueTask] directly follows a [WaitForSlot], and every
    [WaitForSlot] is directly followed by a [QueueTask]. *)
Fixpoint pool_protocol (evs : list Event) : bool :=
  match evs with
  | [] => true
  | CallWaitForSlot :: CallQueueTask _ _ :: rest => pool_protocol rest
  | CallWaitForSlot :: _ => false
  | CallQueueTask _ _ :: _ => false
  | _ :: rest => pool_protocol rest
  end.

(** What a walk may add to the trace: output, and calls of the pool for a
    task whose path is not a directory; an "Entering dir" line only for a
    directory that is not a symlink. *)
Definition walk_event_ok (env : Env) (e : Event) : Prop :=
  match e with
  | WriteNewline | CallWaitForSlot => True
  | WriteNormal text =>
      forall p, text = entering_dir_message p ->
                os_IsDirectory env p = Ok true /\ os_IsSymlink env p = Ok false
  | CallQueueTask task _ => os_IsDirectory env (task_path task) = Ok false
  | _ => False
  end.

(** From [w] to [w'] the trace grew by events satisfying [P] and the current
    file path was left alone. *)
Definition adds (P : list Event -> Prop) (w w' : World) : Prop :=
  exists evs,
    trace w' = trace w ++ evs /\ P evs /\
    current_file_path w' = current_file_path w.

(** The events a walk may add at all. *)
Definition is_walker_event (e : Event) : bool :=
  match e with
  | WriteNewline | WriteNormal _ | CallWaitForSlot | CallQueueTask _ _ => true
  | _ => false
  end.

(** The accepted submissions of the names [entries] of one directory. *)
Definition accepted_tasks (env : Env) (path_real : wstring)
    (entries : list wstring) : list Event :=
  map (fun cur_file =>
         CallQueueTask (mkTask (current_path_of env path_real cur_file)) true)
      (filter (fun cur_file => negb (is_dot_entry cur_file)) entries).

Definition is_written (e : Event) : bool :=
  match e with WriteNormal _ => true | _ => false end.

(** The "Current path" lines of the names [entries] of one directory. *)
Definition announcements (env : Env) (path_real : wstring)
    (entries : list wstring) : list Event :=
  map (fun cur_file =>
         WriteNormal (current_path_message
                        (current_path_of env path_real cur_file)))
      (filter (fun cur_file => negb (is_dot_entry cur_file)) entries).

(** ** Further concrete files and directories *)

(** A file that cannot be opened. *)
Definition file_unopened : FileEnv :=
  mkFileEnv (Ok false) (-1) false None false (Ok tt) None (Ok tt) (Ok tt)
            (Ok tt) (Ok tt).

(** A file of one byte: the two-byte peek comes up short. *)
Definition file_one_byte : FileEnv :=
  mkFileEnv (Ok true) 1 true None true (Ok tt) None (Ok tt) (Ok tt) (Ok tt)
            (Ok tt).

(** A file that shrinks between the peek and the full read. *)
Definition file_short_read : FileEnv :=
  mkFileEnv (Ok true) 4096 true (Some ("M"%char, "Z"%char)) true (Ok tt) None
            (Ok tt) (Ok tt) (Ok tt) (Ok tt).

(** Files whose buffer cannot be allocated: out of memory, and beyond the
    maximal size of a vector. *)
Definition file_no_memory : FileEnv :=
  mkFileEnv (Ok true) 4000000000 true (Some ("M"%char, "Z"%char)) true
            (Raise BadAlloc) None (Ok tt) (Ok tt) (Ok tt) (Ok tt).

Definition file_too_long : FileEnv :=
  mkFileEnv (Ok true) 4000000000 true (Some ("M"%char, "Z"%char)) true
            (Raise (StdException "vector too long")) None (Ok tt) (Ok tt)
            (Ok tt) (Ok tt).

(** A well-formed image that is dumped. *)
Definition file_image : FileEnv :=
  mkFileEnv (Ok true) 4096 true (Some ("M"%char, "Z"%char)) true (Ok tt)
            (Some []) (Ok tt) (Ok tt) (Ok tt) (Ok tt).

(** [C:\d] holds the real directory [sub] and the file [b.txt]; the
    enumeration of [sub] cannot start, with error [code]. *)
Definition env_sub_unlistable (code : DWORD) : Env :=
  mkEnv (fun p => p)
        (fun pattern =>
           if (pattern =? "C:\d\*")%string
           then FindValid "." [".."; "sub"; "b.txt"] ERROR_NO_MORE_FILES
           else FindInvalid code)
        (fun p => Ok (p =? "C:\d\sub")%string)
        (fun _ => Ok false) (fun _ => true) (fun _ => file_txt).

(** The same tree, but the enumeration of [sub] starts, yields the dot
    entries and then fails with error [code]. *)
Definition env_sub_breaks (code : DWORD) : Env :=
  mkEnv (fun p => p)
        (fun pattern =>
           if (pattern =? "C:\d\*")%string
           then FindValid "." [".."; "sub"; "b.txt"] ERROR_NO_MORE_FILES
           else FindValid "." [".."] code)
        (fun p => Ok (p =? "C:\d\sub")%string)
        (fun _ => Ok false) (fun _ => true) (fun _ => file_txt).

(** A directory of plain files; the pool rejects every other call. *)
Definition env_flat : Env :=
  mkEnv (fun p => p)
        (fun _ => FindValid "." [".."; "a.exe"; "b.txt"] ERROR_NO_MORE_FILES)
        (fun _ => Ok false) (fun _ => Ok false) (fun n => Nat.odd n)
        (fun _ => file_txt).

(** * Properties *)

(** ** Generic facts *)

Lemma events_of_intro {A} (c : M A) (w : World) r evs cp q :
  c w = (r, mkWorld (trace w ++ evs) cp q) -> events_of c w = evs.
Proof.
  intros H. unfold events_of. rewrite H. simpl.
  rewrite skipn_app, Nat.sub_diag, skipn_all. reflexivity.
Qed.

Lemma events_of_finished (c : M unit) (w : World) path evs :
  c w = finished w path evs -> events_of c w = evs.
Proof. apply events_of_intro. Qed.

Lemma static_cast_uint32_keeps (z : Z) :
  0 < z -> (static_cast_uint32 z =? z) = true <-> fits_uint32 z.
Proof.
  intros Hz. unfold static_cast_uint32, fits_uint32. rewrite Z.eqb_eq. split.
  - intros H. pose proof (Z.mod_pos_bound z (2 ^ 32) ltac:(lia)). lia.
  - intros H. apply Z.mod_small. lia.
Qed.

Lemma size_gate_open (z : Z) :
  0 < z -> fits_uint32 z ->
  (z <=? 0) = false /\ negb (static_cast_uint32 z =? z) = false.
Proof.
  intros Hz Hf. split.
  - apply Z.leb_gt. exact Hz.
  - apply (static_cast_uint32_keeps z Hz) in Hf. rewrite Hf. reflexivity.
Qed.

Ltac run_monad :=
  cbv beta iota zeta delta
    [DumpFile DumpFile_body DumpFile_handler try_catch bind report emit call
     ret throw out_of_fuel SetCurrentFilePath GetCurrentFilePath];
  rewrite ?Ascii.eqb_refl;
  cbn [trace current_file_path queue_calls fst snd negb orb
       is_bad_alloc is_std_exception].

Ltac norm_trace := rewrite <- ?app_assoc; cbn [app].

(** Run a computation, using the equations in the context for the answers of
    the oracle. *)
Ltac run_with :=
  repeat (run_monad;
          match goal with
          | H : ?x = _ |- context [?x] => rewrite H
          end);
  run_monad; norm_trace; try reflexivity.

Ltac absurd_event H :=
  exfalso; revert H; simpl; intuition discriminate.

(** ** The return points of [DumpFile], one lemma each *)

Section ReturnPoints.
Variables (f : FileEnv) (path : wstring) (w : World).

Lemma DumpFile_open_throws (e : exn) :
  open_file f = Raise e ->
  DumpFile f path w = finished w path
    ([CallOpenFile path] ++ caught_events path e).
Proof.
  intros H1. unfold finished, caught_events. run_with.
  destruct (path =? "")%string; run_with.
Qed.

Lemma DumpFile_open_fails :
  open_file f = Ok false ->
  DumpFile f path w =
    finished w path
    [CallOpenFile path; WriteNewline; WriteNormal "Failed to open file."].
Proof. intros H1. unfold finished. run_with. Qed.

Hypothesis Hopen : open_file f = Ok true.

Lemma DumpFile_empty :
  (tellg f <=? 0) = true ->
  DumpFile f path w =
    finished w path
    [CallOpenFile path; CallTellg; WriteNewline;
          WriteNormal "Empty or invalid file."].
Proof. intros H1. unfold finished. run_with. Qed.

Hypothesis Hpos : (tellg f <=? 0) = false.

Lemma DumpFile_too_large :
  (static_cast_uint32 (tellg f) =? tellg f) = false ->
  DumpFile f path w =
    finished w path
    [CallOpenFile path; CallTellg; WriteNewline;
          WriteNormal "File too large to be a valid PE."].
Proof. intros H1. unfold finished. run_with. Qed.

Hypothesis Hfits : (static_cast_uint32 (tellg f) =? tellg f) = true.

Lemma DumpFile_seek1_fails :
  seekg_1 f = false ->
  DumpFile f path w =
    finished w path
    [CallOpenFile path; CallTellg; CallSeekgBeg; WriteNewline;
          WriteNormal "WARNING! Seeking to beginning of file failed (1)."].
Proof. intros H1. unfold finished. run_with. Qed.

Hypothesis Hseek1 : seekg_1 f = true.

Lemma DumpFile_peek_fails :
  read_mz f = None ->
  DumpFile f path w =
    finished w path
    [CallOpenFile path; CallTellg; CallSeekgBeg; CallRead mz_buf 2;
          WriteNewline; WriteNormal "WARNING! Failed to read header signature."].
Proof. intros H1. unfold finished. run_with. Qed.

Lemma DumpFile_not_mz (mz_buf_0 mz_buf_1 : ascii) :
  read_mz f = Some (mz_buf_0, mz_buf_1) ->
  negb (mz_buf_0 =? "M")%char || negb (mz_buf_1 =? "Z")%char = true ->
  DumpFile f path w =
    finished w path
    [CallOpenFile path; CallTellg; CallSeekgBeg; CallRead mz_buf 2;
          WriteNewline; WriteNormal "Not a PE file (Pass 1)."].
Proof. intros H1 H2. unfold finished. run_with. Qed.

Hypothesis Hmz : read_mz f = Some ("M"%char, "Z"%char).

Lemma DumpFile_seek2_fails :
  seekg_2 f = false ->
  DumpFile f path w =
    finished w path
    [CallOpenFile path; CallTellg; CallSeekgBeg; CallRead mz_buf 2;
          CallSeekgBeg; WriteNewline;
          WriteNormal "WARNING! Seeking to beginning of file failed (2)."].
Proof. intros H1. unfold finished. run_with. Qed.

Hypothesis Hseek2 : seekg_2 f = true.

Lemma DumpFile_bad_alloc :
  resize f = Raise BadAlloc ->
  DumpFile f path w =
    finished w path
    [CallOpenFile path; CallTellg; CallSeekgBeg; CallRead mz_buf 2;
          CallSeekgBeg; CallResize (tellg f); WriteNewline;
          WriteNormal "WARNING! File too large."; WarnUnsupported].
Proof. intros H1. unfold finished. run_with. Qed.

Lemma DumpFile_resize_throws (e : exn) :
  resize f = Raise e -> is_bad_alloc e = false ->
  DumpFile f path w =
    finished w path
    ([CallOpenFile path; CallTellg; CallSeekgBeg; CallRead mz_buf 2;
               CallSeekgBeg; CallResize (tellg f)] ++ caught_events path e).
Proof.
  intros H1 H2. unfold finished, caught_events. run_with.
  destruct (path =? "")%string; run_with.
Qed.

Hypothesis Hresize : resize f = Ok tt.

Lemma DumpFile_read_fails :
  read_all f = None ->
  DumpFile f path w =
    finished w path
    [CallOpenFile path; CallTellg; CallSeekgBeg; CallRead mz_buf 2;
          CallSeekgBeg; CallResize (tellg f); CallRead buf (tellg f);
          WriteNewline; WriteNormal "WARNING! Failed to read file data."].
Proof. intros H1. unfold finished. run_with. Qed.

Variable data : list ascii.
Hypothesis Hread : read_all f = Some data.

Lemma DumpFile_process_throws (e : exn) :
  process_ctor f = Raise e ->
  DumpFile f path w =
    finished w path
    ([CallOpenFile path; CallTellg; CallSeekgBeg; CallRead mz_buf 2;
               CallSeekgBeg; CallResize (tellg f); CallRead buf (tellg f);
               CallProcess] ++ caught_events path e).
Proof.
  intros H1. unfold finished, caught_events. run_with.
  destruct (path =? "")%string; run_with.
Qed.

Hypothesis Hprocess : process_ctor f = Ok tt.

Lemma DumpFile_pe_file_throws (e : exn) :
  pe_file_ctor f = Raise e ->
  DumpFile f path w =
    finished w path
    ([CallOpenFile path; CallTellg; CallSeekgBeg; CallRead mz_buf 2;
               CallSeekgBeg; CallResize (tellg f); CallRead buf (tellg f);
               CallProcess; CallPeFile (tellg f)] ++ caught_events path e).
Proof.
  intros H1. unfold finished, caught_events. run_with.
  destruct (path =? "")%string; run_with.
Qed.

Hypothesis Hpe_file : pe_file_ctor f = Ok tt.

Lemma DumpFile_nt_headers_throws (e : exn) :
  nt_headers_ctor f = Raise e -> is_std_exception e = false ->
  DumpFile f path w =
    finished w path
      ([CallOpenFile path; CallTellg; CallSeekgBeg; CallRead mz_buf 2;
        CallSeekgBeg; CallResize (tellg f); CallRead buf (tellg f);
        CallProcess; CallPeFile (tellg f); CallNtHeaders]
         ++ caught_events path e).
Proof.
  intros H1 H2. unfold finished, caught_events. run_with.
  destruct (path =? "")%string; run_with.
Qed.

Lemma DumpFile_bad_pe (e : exn) :
  nt_headers_ctor f = Raise e -> is_std_exception e = true ->
  DumpFile f path w =
    finished w path
    [CallOpenFile path; CallTellg; CallSeekgBeg; CallRead mz_buf 2;
          CallSeekgBeg; CallResize (tellg f); CallRead buf (tellg f);
          CallProcess; CallPeFile (tellg f); CallNtHeaders; WriteNewline;
          WriteNormal "Not a PE file or wrong architecture (Pass 2)."].
Proof. intros H1 H2. unfold finished. run_with. Qed.

Hypothesis Hnt : nt_headers_ctor f = Ok tt.

Lemma DumpFile_dumped :
  dump_pe_file f = Ok tt ->
  DumpFile f path w =
    finished w path
    [CallOpenFile path; CallTellg; CallSeekgBeg; CallRead mz_buf 2;
          CallSeekgBeg; CallResize (tellg f); CallRead buf (tellg f);
          CallProcess; CallPeFile (tellg f); CallNtHeaders;
          CallDumpPeFile path].
Proof. intros H1. unfold finished. run_with. Qed.

Lemma DumpFile_dump_throws (e : exn) :
  dump_pe_file f = Raise e ->
  DumpFile f path w =
    finished w path
    ([CallOpenFile path; CallTellg; CallSeekgBeg; CallRead mz_buf 2;
               CallSeekgBeg; CallResize (tellg f); CallRead buf (tellg f);
               CallProcess; CallPeFile (tellg f); CallNtHeaders;
               CallDumpPeFile path] ++ caught_events path e).
Proof.
  intros H1. unfold finished, caught_events. run_with.
  destruct (path =? "")%string; run_with.
Qed.

End ReturnPoints.

(** Case analysis over the answers of the file oracle, in the order in which
    [DumpFile] asks for them. *)
Ltac explore_file f path :=
  repeat (run_monad;
          match goal with
          | |- context [open_file f] => destruct (open_file f) as [[|]|?] eqn:?
          | |- context [tellg f <=? 0] => destruct (tellg f <=? 0) eqn:?
          | |- context [static_cast_uint32 (tellg f) =? tellg f] =>
              destruct (static_cast_uint32 (tellg f) =? tellg f) eqn:?
          | |- context [seekg_1 f] => destruct (seekg_1 f) eqn:?
          | |- context [read_mz f] => destruct (read_mz f) as [[? ?]|] eqn:?
          | |- context [(?c =? "M")%char] => destruct (c =? "M")%char eqn:?
          | |- context [(?c =? "Z")%char] => destruct (c =? "Z")%char eqn:?
          | |- context [seekg_2 f] => destruct (seekg_2 f) eqn:?
          | |- context [resize f] => destruct (resize f) as [[]|[]] eqn:?
          | |- context [read_all f] => destruct (read_all f) eqn:?
          | |- context [process_ctor f] => destruct (process_ctor f) as [[]|?] eqn:?
          | |- context [pe_file_ctor f] => destruct (pe_file_ctor f) as [[]|?] eqn:?
          | |- context [nt_headers_ctor f] =>
              destruct (nt_headers_ctor f) as [[]|[]] eqn:?
          | |- context [dump_pe_file f] => destruct (dump_pe_file f) as [[]|?] eqn:?
          | |- context [(path =? "")%string] => destruct (path =? "")%string eqn:?
          end);
  run_monad.

Lemma DumpFile_body_frame (f : FileEnv) (path : wstring) (w : World) r w1 :
  DumpFile_body f path w = (r, w1) ->
  r <> OutOfFuel /\ current_file_path w1 = path /\ queue_calls w1 = queue_calls w.
Proof.
  revert r w1. explore_file f path;
    intros r w1 H; injection H as <- <-; cbn; (repeat split); congruence.
Qed.

Lemma DumpFile_total (f : FileEnv) (path : wstring) (w : World) :
  exists evs, DumpFile f path w = finished w path evs.
Proof.
  unfold finished. explore_file f path; norm_trace; eexists; reflexivity.
Qed.

Lemma ascii_pair_neq (a b : ascii) :
  (a, b) <> ("M"%char, "Z"%char) ->
  negb (a =? "M")%char || negb (b =? "Z")%char = true.
Proof.
  intros H. destruct (a =? "M")%char eqn:Ea; [|reflexivity].
  destruct (b =? "Z")%char eqn:Eb; [|reflexivity].
  apply Ascii.eqb_eq in Ea, Eb. subst. contradiction.
Qed.

(** ** The size gate *)

(** C3: once the file is open, a reported size that is zero or negative is
    reported as empty (reason EmptyOrUnreadable); a positive size that does
    not fit in an unsigned 32-bit integer is reported as too large (reason
    TooLarge); and the first seek, the stage after the size gate, is reached
    only for a strictly positive size that fits in 32 bits. *)
Theorem C3_size_gate (f : FileEnv) (path : wstring) (w : World) :
  open_file f = Ok true ->
  (tellg f <= 0 ->
     DumpFile f path w =
       finished w path [CallOpenFile path; CallTellg; WriteNewline;
                        WriteNormal "Empty or invalid file."]
     /\ rejection_of_report "Empty or invalid file." = Some EmptyOrUnreadable)
  /\ (0 < tellg f -> ~ fits_uint32 (tellg f) ->
     DumpFile f path w =
       finished w path [CallOpenFile path; CallTellg; WriteNewline;
                        WriteNormal "File too large to be a valid PE."]
     /\ rejection_of_report "File too large to be a valid PE." = Some TooLarge)
  /\ (In CallSeekgBeg (events_of (DumpFile f path) w) ->
     0 < tellg f /\ fits_uint32 (tellg f)).
Proof.
  intros Hopen. split; [|split].
  - intros Hle. split; [|reflexivity].
    apply DumpFile_empty; [assumption|]. apply Z.leb_le. exact Hle.
  - intros Hpos Hbig. split; [|reflexivity].
    apply DumpFile_too_large; [assumption| |].
    + apply Z.leb_gt. exact Hpos.
    + destruct (static_cast_uint32 (tellg f) =? tellg f) eqn:E; [|reflexivity].
      apply static_cast_uint32_keeps in E; [contradiction|exact Hpos].
  - intros Hin.
    destruct (tellg f <=? 0) eqn:Hsize.
    { erewrite events_of_finished in Hin by (apply DumpFile_empty; assumption).
      absurd_event Hin. }
    destruct (static_cast_uint32 (tellg f) =? tellg f) eqn:Hcast.
    + apply Z.leb_gt in Hsize. split; [exact Hsize|].
      apply static_cast_uint32_keeps; assumption.
    + erewrite events_of_finished in Hin
        by (apply DumpFile_too_large; assumption).
      absurd_event Hin.
Qed.

Lemma C3_size_gate_witness :
  DumpFile file_empty "empty.bin" w0 =
    finished w0 "empty.bin" [CallOpenFile "empty.bin"; CallTellg; WriteNewline;
                             WriteNormal "Empty or invalid file."]
  /\ DumpFile file_huge "huge.bin" w0 =
    finished w0 "huge.bin" [CallOpenFile "huge.bin"; CallTellg; WriteNewline;
                            WriteNormal "File too large to be a valid PE."]
  /\ (0 < tellg file_txt /\ fits_uint32 (tellg file_txt)).
Proof.
  split; [|split].
  - apply (C3_size_gate file_empty "empty.bin" w0); [reflexivity|].
    simpl; lia.
  - apply (C3_size_gate file_huge "huge.bin" w0); [reflexivity| |].
    + simpl; lia.
    + unfold fits_uint32; simpl; lia.
  - apply (C3_size_gate file_txt "a.txt" w0); [reflexivity|].
    vm_compute. auto 10.
Defined.

(** ** The signature peek *)

(** C2: a file that opens, whose size is strictly positive and fits in 32
    bits, and whose first two bytes can be read (the seek to the start and the
    two-byte read succeed) but are not 'M','Z' is reported as "Not a PE file
    (Pass 1)." (reason NoMagicSignature), and neither the full-size
    allocation nor the full read is executed. *)
Theorem C2_no_signature_no_full_read
    (f : FileEnv) (path : wstring) (w : World) (mz_buf_0 mz_buf_1 : ascii) :
  open_file f = Ok true ->
  0 < tellg f -> fits_uint32 (tellg f) ->
  seekg_1 f = true ->
  read_mz f = Some (mz_buf_0, mz_buf_1) ->
  (mz_buf_0, mz_buf_1) <> ("M"%char, "Z"%char) ->
  DumpFile f path w =
    finished w path [CallOpenFile path; CallTellg; CallSeekgBeg;
                     CallRead mz_buf 2; WriteNewline;
                     WriteNormal "Not a PE file (Pass 1)."]
  /\ rejection_of_report "Not a PE file (Pass 1)." = Some NoMagicSignature
  /\ existsb is_allocation (events_of (DumpFile f path) w) = false
  /\ existsb is_full_read (events_of (DumpFile f path) w) = false.
Proof.
  intros Hopen Hpos Hfits Hseek Hread Hmz.
  destruct (size_gate_open _ Hpos Hfits) as [Hsize Hcast].
  apply negb_false_iff in Hcast.
  assert (Hrun : DumpFile f path w =
    finished w path [CallOpenFile path; CallTellg; CallSeekgBeg;
                     CallRead mz_buf 2; WriteNewline;
                     WriteNormal "Not a PE file (Pass 1)."]).
  { eapply DumpFile_not_mz; eauto using ascii_pair_neq. }
  rewrite (events_of_finished _ _ _ _ Hrun).
  repeat split; try reflexivity. exact Hrun.
Qed.

Lemma C2_no_signature_no_full_read_witness :
  DumpFile file_txt "a.txt" w0 =
    finished w0 "a.txt" [CallOpenFile "a.txt"; CallTellg; CallSeekgBeg;
                         CallRead mz_buf 2; WriteNewline;
                         WriteNormal "Not a PE file (Pass 1)."]
  /\ rejection_of_report "Not a PE file (Pass 1)." = Some NoMagicSignature
  /\ existsb is_allocation (events_of (DumpFile file_txt "a.txt") w0) = false
  /\ existsb is_full_read (events_of (DumpFile file_txt "a.txt") w0) = false.
Proof.
  apply (C2_no_signature_no_full_read file_txt "a.txt" w0 "h" "i").
  - reflexivity.
  - simpl; lia.
  - unfold fits_uint32; simpl; lia.
  - reflexivity.
  - reflexivity.
  - discriminate.
Defined.

(** ** Seek failures *)

(** Among all the messages [DumpFile] can write, only the two seek warnings
    have no rejection reason. *)
Lemma DumpFile_reports_without_reason
    (f : FileEnv) (path : wstring) (w : World) (text : wstring) :
  In (WriteNormal text) (events_of (DumpFile f path) w) ->
  rejection_of_report text = None ->
  text = "WARNING! Seeking to beginning of file failed (1)." \/
  text = "WARNING! Seeking to beginning of file failed (2).".
Proof.
  unfold events_of. revert text.
  explore_file f path; norm_trace;
    rewrite skipn_app, Nat.sub_diag, skipn_all; cbn [app skipn];
    intros text Hin Hnone;
    repeat (destruct Hin as [Hin | Hin];
            [try discriminate; injection Hin as <-;
             try (vm_compute in Hnone; discriminate); auto |]);
    contradiction.
Qed.

(** C10: when the seek back to the start fails, before the peek or before the
    full read, DumpFile writes a warning and returns; the full buffer is not
    allocated and the PE parser and dumper are not invoked; and these two
    warnings, alone among the messages of DumpFile, have no reason in the
    rejection taxonomy. *)
Theorem C10_seek_failure (f : FileEnv) (path : wstring) (w : World) :
  open_file f = Ok true ->
  0 < tellg f -> fits_uint32 (tellg f) ->
  (seekg_1 f = false ->
     DumpFile f path w =
       finished w path
         [CallOpenFile path; CallTellg; CallSeekgBeg; WriteNewline;
          WriteNormal "WARNING! Seeking to beginning of file failed (1)."])
  /\ (seekg_1 f = true -> read_mz f = Some ("M"%char, "Z"%char) ->
      seekg_2 f = false ->
     DumpFile f path w =
       finished w path
         [CallOpenFile path; CallTellg; CallSeekgBeg; CallRead mz_buf 2;
          CallSeekgBeg; WriteNewline;
          WriteNormal "WARNING! Seeking to beginning of file failed (2)."])
  /\ (seekg_1 f = false \/
      (seekg_1 f = true /\ read_mz f = Some ("M"%char, "Z"%char) /\
       seekg_2 f = false) ->
      fst (DumpFile f path w) = Ret tt
      /\ existsb is_allocation (events_of (DumpFile f path) w) = false
      /\ existsb is_deep_parse (events_of (DumpFile f path) w) = false)
  /\ rejection_of_report "WARNING! Seeking to beginning of file failed (1)."
     = None
  /\ rejection_of_report "WARNING! Seeking to beginning of file failed (2)."
     = None
  /\ (forall text,
      In (WriteNormal text) (events_of (DumpFile f path) w) ->
      rejection_of_report text = None ->
      text = "WARNING! Seeking to beginning of file failed (1)." \/
      text = "WARNING! Seeking to beginning of file failed (2).").
Proof.
  intros Hopen Hpos Hfits.
  destruct (size_gate_open _ Hpos Hfits) as [Hsize Hcast].
  apply negb_false_iff in Hcast.
  assert (H1 : seekg_1 f = false -> DumpFile f path w =
       finished w path
         [CallOpenFile path; CallTellg; CallSeekgBeg; WriteNewline;
          WriteNormal "WARNING! Seeking to beginning of file failed (1)."])
    by (intros; apply DumpFile_seek1_fails; assumption).
  assert (H2 : seekg_1 f = true -> read_mz f = Some ("M"%char, "Z"%char) ->
      seekg_2 f = false -> DumpFile f path w =
       finished w path
         [CallOpenFile path; CallTellg; CallSeekgBeg; CallRead mz_buf 2;
          CallSeekgBeg; WriteNewline;
          WriteNormal "WARNING! Seeking to beginning of file failed (2)."])
    by (intros; apply DumpFile_seek2_fails; assumption).
  split; [exact H1|]. split; [exact H2|].
  split; [|split; [reflexivity|split; [reflexivity|]];
           apply DumpFile_reports_without_reason].
  intros [Hs | (Hs & Hmz & Hs2)].
  - specialize (H1 Hs). rewrite (events_of_finished _ _ _ _ H1), H1.
    repeat split.
  - specialize (H2 Hs Hmz Hs2). rewrite (events_of_finished _ _ _ _ H2), H2.
    repeat split.
Qed.

Lemma C10_seek_failure_witness :
  DumpFile file_seek1_fails "a.exe" w0 =
    finished w0 "a.exe"
      [CallOpenFile "a.exe"; CallTellg; CallSeekgBeg; WriteNewline;
       WriteNormal "WARNING! Seeking to beginning of file failed (1)."]
  /\ DumpFile file_seek2_fails "a.exe" w0 =
    finished w0 "a.exe"
      [CallOpenFile "a.exe"; CallTellg; CallSeekgBeg; CallRead mz_buf 2;
       CallSeekgBeg; WriteNewline;
       WriteNormal "WARNING! Seeking to beginning of file failed (2)."]
  /\ (fst (DumpFile file_seek2_fails "a.exe" w0) = Ret tt
      /\ existsb is_allocation
           (events_of (DumpFile file_seek2_fails "a.exe") w0) = false
      /\ existsb is_deep_parse
           (events_of (DumpFile file_seek2_fails "a.exe") w0) = false).
Proof.
  assert (Hsize : 0 < 10 /\ fits_uint32 10) by (unfold fits_uint32; lia).
  destruct Hsize as [Hpos Hfits].
  split; [|split].
  - apply (C10_seek_failure file_seek1_fails "a.exe" w0); try assumption;
      reflexivity.
  - apply (C10_seek_failure file_seek2_fails "a.exe" w0); try assumption;
      reflexivity.
  - apply (C10_seek_failure file_seek2_fails "a.exe" w0); try assumption;
      try reflexivity.
    right. repeat split.
Defined.

(** ** The structural parser *)

Lemma deep_parse_only_after_early_stages
    (f : FileEnv) (path : wstring) (w : World) :
  existsb is_deep_parse (events_of (DumpFile f path) w) = true ->
  passes_early_stages f.
Proof.
  intros Hin. unfold passes_early_stages.
  destruct (open_file f) as [[|]|e0] eqn:Hopen.
  2:{ erewrite events_of_finished in Hin by (apply DumpFile_open_fails; assumption).
      absurd_event Hin. }
  2:{ erewrite events_of_finished in Hin by (apply DumpFile_open_throws; eassumption).
      unfold caught_events in Hin. destruct (path =? "")%string; absurd_event Hin. }
  destruct (tellg f <=? 0) eqn:Hsize.
  { erewrite events_of_finished in Hin by (apply DumpFile_empty; assumption).
    absurd_event Hin. }
  destruct (static_cast_uint32 (tellg f) =? tellg f) eqn:Hcast.
  2:{ erewrite events_of_finished in Hin by (apply DumpFile_too_large; assumption).
      absurd_event Hin. }
  destruct (seekg_1 f) eqn:Hseek1.
  2:{ erewrite events_of_finished in Hin by (apply DumpFile_seek1_fails; assumption).
      absurd_event Hin. }
  destruct (read_mz f) as [[mz0 mz1]|] eqn:Hmz.
  2:{ erewrite events_of_finished in Hin by (apply DumpFile_peek_fails; assumption).
      absurd_event Hin. }
  destruct (negb (mz0 =? "M")%char || negb (mz1 =? "Z")%char) eqn:Hsig.
  { erewrite events_of_finished in Hin by (eapply DumpFile_not_mz; eassumption).
    absurd_event Hin. }
  apply orb_false_iff in Hsig. destruct Hsig as [Hm Hz].
  apply negb_false_iff, Ascii.eqb_eq in Hm, Hz. subst mz0 mz1.
  destruct (seekg_2 f) eqn:Hseek2.
  2:{ erewrite events_of_finished in Hin by (apply DumpFile_seek2_fails; assumption).
      absurd_event Hin. }
  destruct (resize f) as [[]|e1] eqn:Hresize.
  2:{ destruct (is_bad_alloc e1) eqn:Hbad.
      - destruct e1; try discriminate.
        erewrite events_of_finished in Hin by (apply DumpFile_bad_alloc; assumption).
        absurd_event Hin.
      - erewrite events_of_finished in Hin
          by (apply DumpFile_resize_throws; eassumption).
        unfold caught_events in Hin. destruct (path =? "")%string; absurd_event Hin. }
  destruct (read_all f) as [data|] eqn:Hread.
  2:{ erewrite events_of_finished in Hin by (apply DumpFile_read_fails; assumption).
      absurd_event Hin. }
  destruct (process_ctor f) as [[]|e2] eqn:Hprocess.
  2:{ erewrite events_of_finished in Hin
        by (eapply DumpFile_process_throws; eassumption).
      unfold caught_events in Hin. destruct (path =? "")%string; absurd_event Hin. }
  destruct (pe_file_ctor f) as [[]|e3] eqn:Hpe.
  2:{ erewrite events_of_finished in Hin
        by (eapply DumpFile_pe_file_throws; eassumption).
      unfold caught_events in Hin. destruct (path =? "")%string; absurd_event Hin. }
  apply Z.leb_gt in Hsize.
  apply static_cast_uint32_keeps in Hcast; [|assumption].
  repeat split; try assumption; try reflexivity.
  - apply Hcast.
  - apply Hcast.
  - exists data. reflexivity.
Qed.

Lemma In_deep_parse (e : Event) (evs : list Event) :
  In e evs -> is_deep_parse e = true -> existsb is_deep_parse evs = true.
Proof. intros Hin He. apply existsb_exists. exists e. auto. Qed.

(** C8 (as amended): the NtHeaders constructor, the structural parser, is
    called only on a buffer that passed every earlier stage (open, size
    gates, signature peek, allocation, full read). Every exception it raises
    whose class derives from std::exception is reported as "Not a PE file or
    wrong architecture (Pass 2)." (reason StructurallyInvalid), after which
    DumpFile returns normally without calling the dumper. A thrown object of
    any other type passes that handler and is caught by the catch-all:
    DumpFile writes it to cerr with the current file path and returns
    normally as well, again without calling the dumper. The dumper is called
    only after the NtHeaders constructor has accepted the buffer. *)
Theorem C8_structural_parser (f : FileEnv) (path : wstring) (w : World) :
  (In CallNtHeaders (events_of (DumpFile f path) w) -> passes_early_stages f)
  /\ (forall e : exn,
      nt_headers_ctor f = Raise e ->
      In CallNtHeaders (events_of (DumpFile f path) w) ->
      (is_std_exception e = true ->
       DumpFile f path w =
         finished w path
           [CallOpenFile path; CallTellg; CallSeekgBeg; CallRead mz_buf 2;
            CallSeekgBeg; CallResize (tellg f); CallRead buf (tellg f);
            CallProcess; CallPeFile (tellg f); CallNtHeaders; WriteNewline;
            WriteNormal "Not a PE file or wrong architecture (Pass 2)."]
       /\ rejection_of_report "Not a PE file or wrong architecture (Pass 2)."
          = Some StructurallyInvalid)
      /\ (is_std_exception e = false ->
          DumpFile f path w =
            finished w path
              ([CallOpenFile path; CallTellg; CallSeekgBeg; CallRead mz_buf 2;
                CallSeekgBeg; CallResize (tellg f); CallRead buf (tellg f);
                CallProcess; CallPeFile (tellg f); CallNtHeaders]
                 ++ CerrError e ::
                    (if (path =? "")%string then []
                     else [WcerrCurrentFile path]))))
  /\ (forall p : wstring,
      In (CallDumpPeFile p) (events_of (DumpFile f path) w) ->
      passes_early_stages f /\ nt_headers_ctor f = Ok tt).
Proof.
  assert (Hbad : forall e, passes_early_stages f -> nt_headers_ctor f = Raise e ->
            is_std_exception e = true ->
            DumpFile f path w =
              finished w path
                [CallOpenFile path; CallTellg; CallSeekgBeg; CallRead mz_buf 2;
                 CallSeekgBeg; CallResize (tellg f); CallRead buf (tellg f);
                 CallProcess; CallPeFile (tellg f); CallNtHeaders; WriteNewline;
                 WriteNormal "Not a PE file or wrong architecture (Pass 2)."]).
  { intros e (Hopen & Hpos & Hfits & Hs1 & Hmz & Hs2 & Hres & [data Hread]
              & Hproc & Hpe) Hnt Hstd.
    destruct (size_gate_open _ Hpos Hfits) as [Hsize Hcast].
    apply negb_false_iff in Hcast.
    eapply DumpFile_bad_pe; eassumption. }
  assert (Hother : forall e, passes_early_stages f -> nt_headers_ctor f = Raise e ->
            is_std_exception e = false ->
            DumpFile f path w =
              finished w path
                ([CallOpenFile path; CallTellg; CallSeekgBeg; CallRead mz_buf 2;
                  CallSeekgBeg; CallResize (tellg f); CallRead buf (tellg f);
                  CallProcess; CallPeFile (tellg f); CallNtHeaders]
                   ++ caught_events path e)).
  { intros e (Hopen & Hpos & Hfits & Hs1 & Hmz & Hs2 & Hres & [data Hread]
              & Hproc & Hpe) Hnt Hstd.
    destruct (size_gate_open _ Hpos Hfits) as [Hsize Hcast].
    apply negb_false_iff in Hcast.
    eapply DumpFile_nt_headers_throws; eassumption. }
  split; [|split].
  - intros Hin. apply (deep_parse_only_after_early_stages f path w).
    apply (In_deep_parse _ _ Hin). reflexivity.
  - intros e Hnt Hin.
    assert (Hearly : passes_early_stages f).
    { apply (deep_parse_only_after_early_stages f path w).
      apply (In_deep_parse _ _ Hin). reflexivity. }
    split.
    + intros Hstd. split; [|reflexivity]. apply (Hbad e); assumption.
    + intros Hstd. apply (Hother e); assumption.
  - intros p Hin.
    assert (Hearly : passes_early_stages f).
    { apply (deep_parse_only_after_early_stages f path w).
      apply (In_deep_parse _ _ Hin). reflexivity. }
    split; [exact Hearly|].
    destruct (nt_headers_ctor f) as [[]|e] eqn:Hnt; [reflexivity|].
    destruct (is_std_exception e) eqn:Hstd.
    + rewrite (events_of_finished _ _ _ _ (Hbad e Hearly eq_refl Hstd)) in Hin.
      absurd_event Hin.
    + rewrite (events_of_finished _ _ _ _ (Hother e Hearly eq_refl Hstd)) in Hin.
      unfold caught_events in Hin. destruct (path =? "")%string;
        absurd_event Hin.
Qed.

Lemma C8_structural_parser_witness :
  passes_early_stages file_bad_pe
  /\ DumpFile file_bad_pe "d.exe" w0 =
       finished w0 "d.exe"
         [CallOpenFile "d.exe"; CallTellg; CallSeekgBeg; CallRead mz_buf 2;
          CallSeekgBeg; CallResize 10; CallRead buf 10;
          CallProcess; CallPeFile 10; CallNtHeaders; WriteNewline;
          WriteNormal "Not a PE file or wrong architecture (Pass 2)."]
  /\ DumpFile file_nt_throws_int "d.exe" w0 =
       finished w0 "d.exe"
         [CallOpenFile "d.exe"; CallTellg; CallSeekgBeg; CallRead mz_buf 2;
          CallSeekgBeg; CallResize 10; CallRead buf 10;
          CallProcess; CallPeFile 10; CallNtHeaders;
          CerrError (NonStd 42); WcerrCurrentFile "d.exe"]
  /\ (passes_early_stages file_dump_throws
      /\ nt_headers_ctor file_dump_throws = Ok tt).
Proof.
  assert (Hin : In CallNtHeaders (events_of (DumpFile file_bad_pe "d.exe") w0))
    by (vm_compute; auto 20).
  assert (Hin' : In CallNtHeaders
                    (events_of (DumpFile file_nt_throws_int "d.exe") w0))
    by (vm_compute; auto 20).
  split; [|split; [|split]].
  - apply (C8_structural_parser file_bad_pe "d.exe" w0). exact Hin.
  - eapply (C8_structural_parser file_bad_pe "d.exe" w0).
    + reflexivity.
    + exact Hin.
    + reflexivity.
  - destruct (C8_structural_parser file_nt_throws_int "d.exe" w0)
      as (_ & Hraise & _).
    apply (Hraise (NonStd 42) eq_refl Hin'). reflexivity.
  - apply (C8_structural_parser file_dump_throws "a.exe" w0) with (p := "a.exe").
    vm_compute. auto 20.
Defined.

(** C8, counterexample: a file passes every stage up to the structural
    parser, and the NtHeaders constructor throws an object that is not a
    std::exception. The handler for std::exception does not match: no
    "Pass 2" line is written, the catch-all writes the error to cerr, and
    the attempt has no rejection reason. *)
Lemma C8_non_std_exception_is_not_reported_as_invalid :
  passes_early_stages file_nt_throws_int
  /\ nt_headers_ctor file_nt_throws_int = Raise (NonStd 42)
  /\ DumpFile file_nt_throws_int "d.exe" w0 =
       (Ret tt,
        mkWorld [CallOpenFile "d.exe"; CallTellg; CallSeekgBeg;
                 CallRead mz_buf 2; CallSeekgBeg; CallResize 10;
                 CallRead buf 10; CallProcess; CallPeFile 10; CallNtHeaders;
                 CerrError (NonStd 42); WcerrCurrentFile "d.exe"]
                "d.exe" 0)
  /\ ~ In (WriteNormal "Not a PE file or wrong architecture (Pass 2).")
          (events_of (DumpFile file_nt_throws_int "d.exe") w0).
Proof.
  split.
  { unfold passes_early_stages, fits_uint32. simpl.
    repeat split; try reflexivity; try lia. exists []. reflexivity. }
  split; [reflexivity|]. split; [reflexivity|].
  vm_compute. intuition discriminate.
Qed.

(** ** The catch-all of [DumpFile] *)

(** C9: DumpFile never lets an exception out: it always returns normally
    and leaves its own path as the current file path (set at the start, never
    cleared); and when the body raises an exception, the handler writes the
    error and then the current file path, which is the path of this attempt
    (the line is omitted only for an empty path), and nothing else happens. *)
Theorem C9_exceptions_stay_inside (f : FileEnv) (path : wstring) (w : World) :
  fst (DumpFile f path w) = Ret tt
  /\ current_file_path (snd (DumpFile f path w)) = path
  /\ (forall (e : exn) (w1 : World),
      DumpFile_body f path w = (Throw e, w1) ->
      current_file_path w1 = path
      /\ DumpFile f path w =
           (Ret tt,
            mkWorld (trace w1 ++ CerrError e ::
                       (if (path =? "")%string then []
                        else [WcerrCurrentFile path]))
                    path (queue_calls w1))).
Proof.
  destruct (DumpFile_total f path w) as [evs Hrun].
  rewrite Hrun. split; [reflexivity|]. split; [reflexivity|].
  intros e w1 Hbody.
  destruct (DumpFile_body_frame _ _ _ _ _ Hbody) as (_ & Hpath & _).
  split; [exact Hpath|].
  rewrite <- Hrun. unfold DumpFile, try_catch. rewrite Hbody.
  run_monad. rewrite Hpath.
  destruct (path =? "")%string; run_monad; norm_trace; reflexivity.
Qed.

Lemma C9_exceptions_stay_inside_witness :
  DumpFile file_dump_throws "a.exe" w0 =
    (Ret tt,
     mkWorld [CallOpenFile "a.exe"; CallTellg; CallSeekgBeg; CallRead mz_buf 2;
              CallSeekgBeg; CallResize 10; CallRead buf 10; CallProcess;
              CallPeFile 10; CallNtHeaders; CallDumpPeFile "a.exe";
              CerrError (StdException "boom"); WcerrCurrentFile "a.exe"]
             "a.exe" 0).
Proof.
  destruct (C9_exceptions_stay_inside file_dump_throws "a.exe" w0)
    as (_ & _ & Hcaught).
  apply (Hcaught (StdException "boom")
           (mkWorld [CallOpenFile "a.exe"; CallTellg; CallSeekgBeg;
                     CallRead mz_buf 2; CallSeekgBeg; CallResize 10;
                     CallRead buf 10; CallProcess; CallPeFile 10; CallNtHeaders;
                     CallDumpPeFile "a.exe"] "a.exe" 0)).
  reflexivity.
Defined.

(** ** The walker: running the pieces *)

Ltac run_walk :=
  cbv beta iota zeta delta
    [announce_entry announce_dir IsDirectory IsSymlink WaitForSlot QueueTask
     entry_handler entry_guarded dump_entry finish_enumeration
     try_catch bind report emit call ret throw out_of_fuel];
  cbn [trace current_file_path queue_calls fst snd negb orb
       code_is as_hadesmem_error].

Lemma bind_run {A B} (c : M A) (k : A -> M B) (w : World) :
  (x <- c ;; k x) w =
    match c w with
    | (Ret a, w') => k a w'
    | (Throw e, w') => (Throw e, w')
    | (OutOfFuel, w') => (OutOfFuel, w')
    end.
Proof. reflexivity. Qed.

Lemma report_run (text : wstring) (w : World) :
  report text w =
    (Ret tt,
     mkWorld (trace w ++ [WriteNewline; WriteNormal text])
             (current_file_path w) (queue_calls w)).
Proof. run_walk. norm_trace. reflexivity. Qed.

Lemma first_accept_next (env : Env) (n k : nat) :
  first_accept env n (S k) -> first_accept env (S n) k.
Proof.
  intros [Hrej Hacc]. split.
  - intros j Hj. specialize (Hrej (S j) ltac:(lia)).
    rewrite Nat.add_succ_r in Hrej. exact Hrej.
  - rewrite Nat.add_succ_r in Hacc. exact Hacc.
Qed.

(** The admission loop against a pool that rejects [k] times: [k + 1] rounds,
    the last one accepted. *)
Lemma submit_rounds (env : Env) (task : Task) (k : nat) :
  forall (fuel : nat) (w : World),
    first_accept env (queue_calls w) k -> (k < fuel)%nat ->
    submit env fuel task w =
      (Ret tt,
       mkWorld (trace w ++ rounds task k) (current_file_path w)
               (queue_calls w + S k)).
Proof.
  induction k as [|k IH]; intros fuel w Hfirst Hfuel.
  - destruct fuel as [|fuel]; [lia|]. destruct Hfirst as [_ Hacc].
    rewrite Nat.add_0_r in Hacc. cbn [submit rounds]. run_walk. rewrite Hacc.
    cbn [negb]. norm_trace. rewrite Nat.add_1_r. reflexivity.
  - destruct fuel as [|fuel]; [lia|].
    pose proof (proj1 Hfirst 0%nat ltac:(lia)) as Hrej.
    rewrite Nat.add_0_r in Hrej. cbn [submit rounds]. run_walk. rewrite Hrej.
    cbn [negb]. rewrite IH.
    + cbn [trace current_file_path queue_calls]. norm_trace.
      do 2 f_equal. lia.
    + cbn [queue_calls]. apply first_accept_next. exact Hfirst.
    + lia.
Qed.

Lemma rounds_accepted_once (task : Task) (k : nat) :
  List.length (filter is_accepted (rounds task k)) = 1%nat.
Proof. induction k as [|k IH]; [reflexivity | exact IH]. Qed.

Lemma rounds_end (task : Task) (k : nat) :
  exists evs, rounds task k = evs ++ [CallQueueTask task true].
Proof.
  induction k as [|k [evs IH]].
  - exists [CallWaitForSlot]. reflexivity.
  - exists (CallWaitForSlot :: CallQueueTask task false :: evs).
    cbn [rounds]. rewrite IH. reflexivity.
Qed.

Lemma rounds_In_accepted (task : Task) (k : nat) :
  In (CallQueueTask task true) (rounds task k).
Proof.
  destruct (rounds_end task k) as [evs ->]. apply in_or_app. right. left.
  reflexivity.
Qed.

(** ** Submission of plain files *)

(** C6: for an entry that is not a directory the walker builds the task
    from the path alone and repeats WaitForSlot, QueueTask until QueueTask
    returns true: against a pool that rejects k times the iteration consists
    of the announcement and k + 1 rounds, the task is accepted exactly once,
    by the last call, and only then does the loop go on to the remaining
    entries. *)
Theorem C6_submission_protocol
    (env : Env) (rec : wstring -> M unit) (fuel : nat)
    (path_real cur_file : wstring) (more : list wstring) (w : World) (k : nat) :
  let cur_path := current_path_of env path_real cur_file in
  let task := mkTask cur_path in
  let w' :=
    mkWorld (trace w ++ [WriteNewline; WriteNormal (current_path_message cur_path)]
               ++ rounds task k)
            (current_file_path w) (queue_calls w + S k) in
  is_dot_entry cur_file = false ->
  os_IsDirectory env cur_path = Ok false ->
  first_accept env (queue_calls w) k -> (k < fuel)%nat ->
  dump_entry env rec fuel path_real cur_file w = (Ret tt, w')
  /\ dump_entries env rec fuel path_real (cur_file :: more) w
     = dump_entries env rec fuel path_real more w'
  /\ List.length (filter is_accepted (rounds task k)) = 1%nat
  /\ (exists evs, rounds task k = evs ++ [CallQueueTask task true])
  /\ run_task env task = DumpFile (os_file env cur_path) cur_path.
Proof.
  intros cur_path task w' Hdot Hdir Hfirst Hfuel.
  assert (Hentry : dump_entry env rec fuel path_real cur_file w = (Ret tt, w')).
  { unfold is_dot_entry in Hdot. run_walk. rewrite Hdot.
    fold cur_path. rewrite Hdir. run_walk.
    rewrite submit_rounds with (k := k); [|exact Hfirst|exact Hfuel].
    cbn [trace current_file_path queue_calls]. subst w' task. norm_trace.
    reflexivity. }
  split; [exact Hentry|]. split.
  - cbn [dump_entries]. unfold bind at 1. rewrite Hentry. reflexivity.
  - split; [apply rounds_accepted_once|]. split; [apply rounds_end|].
    reflexivity.
Qed.

Lemma C6_submission_protocol_witness :
  dump_entry env_cycle (DumpDir env_cycle 2) 3 "C:\d" "a.exe" w0 =
    (Ret tt,
     mkWorld [WriteNewline; WriteNormal (current_path_message "C:\d\a.exe");
              CallWaitForSlot; CallQueueTask (mkTask "C:\d\a.exe") false;
              CallWaitForSlot; CallQueueTask (mkTask "C:\d\a.exe") true]
             "" 2).
Proof.
  apply (C6_submission_protocol env_cycle (DumpDir env_cycle 2) 3
           "C:\d" "a.exe" [] w0 1).
  - reflexivity.
  - reflexivity.
  - split.
    + intros j Hj. assert (j = 0)%nat as -> by lia. reflexivity.
    + reflexivity.
  - lia.
Defined.

(** ** The start of an enumeration *)

Lemma DumpDir_invalid (env : Env) (fuel : nat) (path : wstring) (w : World)
    (code : DWORD) :
  os_FindFirstFileW env (real_path path +++ "\*") = FindInvalid code ->
  DumpDir env (S fuel) path w =
    (if code =? ERROR_FILE_NOT_FOUND then report "Directory is empty."
     else if code =? ERROR_ACCESS_DENIED then report "Access denied to directory."
     else throw (HadesmemError "FindFirstFile failed." (Some code)))
      (snd (announce_dir path w)).
Proof.
  intros Hfind. cbn [DumpDir]. unfold bind at 1.
  unfold announce_dir at 1. rewrite report_run, Hfind.
  unfold announce_dir. rewrite report_run. reflexivity.
Qed.

Lemma DumpDir_valid (env : Env) (fuel : nat) (path : wstring) (w : World)
    (first : wstring) (rest : list wstring) (end_error : DWORD) :
  os_FindFirstFileW env (real_path path +++ "\*")
    = FindValid first rest end_error ->
  DumpDir env (S fuel) path w =
    (dump_entries env (DumpDir env fuel) (S fuel) (real_path path)
       (first :: rest) ;;
     finish_enumeration end_error) (snd (announce_dir path w)).
Proof.
  intros Hfind. cbn [DumpDir]. unfold bind at 1.
  unfold announce_dir at 1. rewrite report_run, Hfind.
  unfold announce_dir. rewrite report_run. reflexivity.
Qed.

(** C5 (as amended): when FindFirstFileW fails, "file not found" is
    reported as "Directory is empty." and "access denied" as "Access denied to
    directory.", each exactly once and with a normal return; every other
    code, sharing violation included, is thrown as a hadesmem::Error that
    carries the code. *)
Theorem C5_enumeration_start
    (env : Env) (fuel : nat) (path : wstring) (w : World) (code : DWORD) :
  os_FindFirstFileW env (real_path path +++ "\*") = FindInvalid code ->
  (code = ERROR_FILE_NOT_FOUND ->
     DumpDir env (S fuel) path w =
       (Ret tt,
        mkWorld (trace w ++ [WriteNewline; WriteNormal (entering_dir_message path);
                             WriteNewline; WriteNormal "Directory is empty."])
                (current_file_path w) (queue_calls w)))
  /\ (code = ERROR_ACCESS_DENIED ->
     DumpDir env (S fuel) path w =
       (Ret tt,
        mkWorld (trace w ++ [WriteNewline; WriteNormal (entering_dir_message path);
                             WriteNewline;
                             WriteNormal "Access denied to directory."])
                (current_file_path w) (queue_calls w)))
  /\ (code <> ERROR_FILE_NOT_FOUND -> code <> ERROR_ACCESS_DENIED ->
     DumpDir env (S fuel) path w =
       (Throw (HadesmemError "FindFirstFile failed." (Some code)),
        mkWorld (trace w ++ [WriteNewline; WriteNormal (entering_dir_message path)])
                (current_file_path w) (queue_calls w))).
Proof.
  intros Hfind. rewrite (DumpDir_invalid _ _ _ _ _ Hfind).
  unfold announce_dir. rewrite report_run. cbn [snd].
  split; [|split].
  - intros ->. rewrite Z.eqb_refl, report_run.
    cbn [trace current_file_path queue_calls]. norm_trace. reflexivity.
  - intros ->.
    change (ERROR_ACCESS_DENIED =? ERROR_FILE_NOT_FOUND) with false.
    rewrite Z.eqb_refl, report_run.
    cbn [trace current_file_path queue_calls]. norm_trace. reflexivity.
  - intros Hfnf Hdenied.
    apply Z.eqb_neq in Hfnf, Hdenied. rewrite Hfnf, Hdenied. reflexivity.
Qed.

Lemma C5_enumeration_start_witness :
  DumpDir env_no_entry 1 "C:\empty" w0 =
    (Ret tt,
     mkWorld [WriteNewline; WriteNormal (entering_dir_message "C:\empty");
              WriteNewline; WriteNormal "Directory is empty."] "" 0).
Proof.
  apply (C5_enumeration_start env_no_entry 0 "C:\empty" w0 ERROR_FILE_NOT_FOUND).
  - reflexivity.
  - reflexivity.
Defined.

(** C5, counterexample: the classifier of the specification gives sharing
    violation the disposition Skip, but a walk whose FindFirstFileW fails
    with a sharing violation does not return: it throws. *)
Lemma C5_sharing_violation_propagates :
  ErrorClassifier ERROR_SHARING_VIOLATION = Skip
  /\ os_FindFirstFileW env_locked (real_path "C:\locked" +++ "\*")
     = FindInvalid ERROR_SHARING_VIOLATION
  /\ DumpDir env_locked 1 "C:\locked" w0 =
       (Throw (HadesmemError "FindFirstFile failed."
                             (Some ERROR_SHARING_VIOLATION)),
        mkWorld [WriteNewline; WriteNormal (entering_dir_message "C:\locked")]
                "" 0).
Proof. repeat split. Qed.

(** ** Errors of one entry *)

Lemma dump_entries_app (env : Env) (rec : wstring -> M unit) (fuel : nat)
    (path_real : wstring) (done more : list wstring) (w : World) :
  dump_entries env rec fuel path_real (done ++ more) w =
    (dump_entries env rec fuel path_real done ;;
     dump_entries env rec fuel path_real more) w.
Proof.
  revert w. induction done as [|cur_file done IH]; intros w.
  - reflexivity.
  - cbn [app dump_entries]. unfold bind.
    destruct (dump_entry env rec fuel path_real cur_file w) as [[[]| e |] w1];
      try reflexivity.
    rewrite IH. reflexivity.
Qed.

Lemma dump_entry_error (env : Env) (rec : wstring -> M unit) (fuel : nat)
    (path_real cur_file : wstring) (w : World) (e : exn) (w_err : World) :
  is_dot_entry cur_file = false ->
  entry_guarded env rec fuel (current_path_of env path_real cur_file)
    (snd (announce_entry (current_path_of env path_real cur_file) w))
    = (Throw e, w_err) ->
  dump_entry env rec fuel path_real cur_file w = entry_handler e w_err.
Proof.
  intros Hdot Hguard. unfold is_dot_entry in Hdot.
  unfold dump_entry. rewrite Hdot. unfold bind at 1.
  unfold announce_entry in *. rewrite report_run in *. cbn [snd] in Hguard.
  unfold try_catch. rewrite Hguard. reflexivity.
Qed.

(** C4: when the classification or the recursion of one entry raises a
    hadesmem::Error whose Win32 code is file not found, access denied or
    sharing violation (disposition Skip), the walker reports it, adding a
    new line and the matching message to the trace, and goes on with the
    remaining entries of the directory; for every other code the error
    leaves the walk of the current directory as it was raised. *)
Theorem C4_entry_errors
    (env : Env) (fuel : nat) (path : wstring) (w : World)
    (first : wstring) (rest : list wstring) (end_error : DWORD)
    (done : list wstring) (cur_file : wstring) (more : list wstring)
    (w_done w_err : World) (what : string) (c : DWORD) :
  let path_real := real_path path in
  let cur_path := current_path_of env path_real cur_file in
  let rec := DumpDir env fuel in
  os_FindFirstFileW env (path_real +++ "\*") = FindValid first rest end_error ->
  first :: rest = done ++ cur_file :: more ->
  dump_entries env rec (S fuel) path_real done
    (mkWorld (trace w ++ [WriteNewline; WriteNormal (entering_dir_message path)])
             (current_file_path w) (queue_calls w))
    = (Ret tt, w_done) ->
  is_dot_entry cur_file = false ->
  entry_guarded env rec (S fuel) cur_path
    (mkWorld (trace w_done ++
                [WriteNewline; WriteNormal (current_path_message cur_path)])
             (current_file_path w_done) (queue_calls w_done))
    = (Throw (HadesmemError what (Some c)), w_err) ->
  (ErrorClassifier c = Skip ->
     exists text,
       In (c, text) [(ERROR_SHARING_VIOLATION, "Sharing violation.");
                     (ERROR_ACCESS_DENIED, "Access denied.");
                     (ERROR_FILE_NOT_FOUND, "File not found.")]
       /\ dump_entry env rec (S fuel) path_real cur_file w_done
          = (Ret tt,
             mkWorld (trace w_err ++ [WriteNewline; WriteNormal text])
                     (current_file_path w_err) (queue_calls w_err))
       /\ DumpDir env (S fuel) path w
          = (dump_entries env rec (S fuel) path_real more ;;
             finish_enumeration end_error)
              (mkWorld (trace w_err ++ [WriteNewline; WriteNormal text])
                       (current_file_path w_err) (queue_calls w_err)))
  /\ (ErrorClassifier c <> Skip ->
     dump_entry env rec (S fuel) path_real cur_file w_done
       = (Throw (HadesmemError what (Some c)), w_err)
     /\ DumpDir env (S fuel) path w
       = (Throw (HadesmemError what (Some c)), w_err)).
Proof.
  intros path_real cur_path rec Hfind Hsplit Hdone Hdot Hguard.
  assert (Hdone' : dump_entries env rec (S fuel) path_real done
                     (snd (announce_dir path w)) = (Ret tt, w_done))
    by (unfold announce_dir; rewrite report_run; exact Hdone).
  assert (Hguard' : entry_guarded env rec (S fuel) cur_path
                      (snd (announce_entry cur_path w_done))
                    = (Throw (HadesmemError what (Some c)), w_err))
    by (unfold announce_entry; rewrite report_run; exact Hguard).
  pose proof (dump_entry_error _ _ _ _ _ _ _ _ Hdot Hguard') as Hentry.
  assert (Hwalk : forall r w1,
             dump_entry env rec (S fuel) path_real cur_file w_done = (r, w1) ->
             DumpDir env (S fuel) path w =
               match r with
               | Ret _ => (dump_entries env rec (S fuel) path_real more ;;
                           finish_enumeration end_error) w1
               | Throw e => (Throw e, w1)
               | OutOfFuel => (OutOfFuel, w1)
               end).
  { intros r w1 Hr. rewrite (DumpDir_valid _ _ _ _ _ _ _ Hfind).
    fold path_real rec. rewrite Hsplit. unfold bind at 1.
    rewrite dump_entries_app. unfold bind at 1. rewrite Hdone'.
    cbn [dump_entries]. unfold bind at 1. rewrite Hr.
    destruct r as [[]| |]; reflexivity. }
  assert (Hreport : forall text,
             entry_handler (HadesmemError what (Some c)) w_err
               = report text w_err ->
             dump_entry env rec (S fuel) path_real cur_file w_done
             = (Ret tt,
                mkWorld (trace w_err ++ [WriteNewline; WriteNormal text])
                        (current_file_path w_err) (queue_calls w_err))).
  { intros text Hhandler. rewrite Hentry, Hhandler. apply report_run. }
  unfold ErrorClassifier. split.
  - intros Hskip.
    destruct (c =? ERROR_SHARING_VIOLATION) eqn:Hsv;
      [|destruct (c =? ERROR_ACCESS_DENIED) eqn:Had;
        [|destruct (c =? ERROR_FILE_NOT_FOUND) eqn:Hfnf]].
    + exists "Sharing violation.". apply Z.eqb_eq in Hsv. subst c.
      split; [left; reflexivity|].
      pose proof (Hreport "Sharing violation." eq_refl) as He.
      split; [exact He | exact (Hwalk _ _ He)].
    + exists "Access denied.". apply Z.eqb_eq in Had. subst c.
      split; [right; left; reflexivity|].
      pose proof (Hreport "Access denied." eq_refl) as He.
      split; [exact He | exact (Hwalk _ _ He)].
    + exists "File not found.". apply Z.eqb_eq in Hfnf. subst c.
      split; [right; right; left; reflexivity|].
      pose proof (Hreport "File not found." eq_refl) as He.
      split; [exact He | exact (Hwalk _ _ He)].
    + exfalso.
      destruct (c =? ERROR_NO_MORE_FILES); discriminate.
  - intros Hfatal.
    assert (He : dump_entry env rec (S fuel) path_real cur_file w_done
                 = (Throw (HadesmemError what (Some c)), w_err)).
    { rewrite Hentry. unfold entry_handler.
      cbn [as_hadesmem_error code_is].
      destruct (c =? ERROR_FILE_NOT_FOUND) eqn:Hfnf; [contradiction|].
      destruct (c =? ERROR_ACCESS_DENIED) eqn:Had; [contradiction|].
      destruct (c =? ERROR_SHARING_VIOLATION) eqn:Hsv; [contradiction|].
      reflexivity. }
    split; [exact He | exact (Hwalk _ _ He)].
Qed.

Lemma C4_entry_errors_witness :
  (dump_entry (env_protected ERROR_ACCESS_DENIED)
     (DumpDir (env_protected ERROR_ACCESS_DENIED) 0) 1 "C:\d" "protected"
     (mkWorld [WriteNewline; WriteNormal (entering_dir_message "C:\d")] "" 0)
   = (Ret tt,
      mkWorld [WriteNewline; WriteNormal (entering_dir_message "C:\d");
               WriteNewline;
               WriteNormal (current_path_message "C:\d\protected");
               WriteNewline; WriteNormal "Access denied."] "" 0)
   /\ DumpDir (env_protected ERROR_ACCESS_DENIED) 1 "C:\d" w0
      = (Ret tt,
         mkWorld [WriteNewline; WriteNormal (entering_dir_message "C:\d");
                  WriteNewline;
                  WriteNormal (current_path_message "C:\d\protected");
                  WriteNewline; WriteNormal "Access denied.";
                  WriteNewline; WriteNormal (current_path_message "C:\d\b.txt");
                  CallWaitForSlot;
                  CallQueueTask (mkTask "C:\d\b.txt") true] "" 1))
  /\ DumpDir (env_protected 87) 1 "C:\d" w0
     = (Throw (HadesmemError "GetFileAttributes failed." (Some 87)),
        mkWorld [WriteNewline; WriteNormal (entering_dir_message "C:\d");
                 WriteNewline;
                 WriteNormal (current_path_message "C:\d\protected")] "" 0).
Proof.
  split.
  - destruct (C4_entry_errors (env_protected ERROR_ACCESS_DENIED) 0 "C:\d" w0
                "." [".."; "protected"; "b.txt"] ERROR_NO_MORE_FILES
                ["."; ".."] "protected" ["b.txt"]
                (mkWorld [WriteNewline;
                          WriteNormal (entering_dir_message "C:\d")] "" 0)
                (mkWorld [WriteNewline;
                          WriteNormal (entering_dir_message "C:\d");
                          WriteNewline;
                          WriteNormal (current_path_message "C:\d\protected")]
                         "" 0)
                "GetFileAttributes failed." ERROR_ACCESS_DENIED
                eq_refl eq_refl eq_refl eq_refl eq_refl) as [Hskip _].
    destruct (Hskip eq_refl) as (text & Hin & Hentry & Hwalk).
    assert (Htext : text = "Access denied.")
      by (destruct Hin as [H|[H|[H|[]]]]; vm_compute in H; congruence).
    subst text. split; [exact Hentry|]. rewrite Hwalk. reflexivity.
  - apply (C4_entry_errors (env_protected 87) 0 "C:\d" w0
             "." [".."; "protected"; "b.txt"] ERROR_NO_MORE_FILES
             ["."; ".."] "protected" ["b.txt"]
             (mkWorld [WriteNewline;
                       WriteNormal (entering_dir_message "C:\d")] "" 0)
             (mkWorld [WriteNewline;
                       WriteNormal (entering_dir_message "C:\d");
                       WriteNewline;
                       WriteNormal (current_path_message "C:\d\protected")]
                      "" 0)
             "GetFileAttributes failed." 87);
      try reflexivity.
    discriminate.
Defined.

(** ** The trace of a walk only grows *)

Lemma extends_refl (w : World) : extends w w.
Proof. exists []. rewrite app_nil_r. reflexivity. Qed.

Lemma extends_trans (w1 w2 w3 : World) :
  extends w1 w2 -> extends w2 w3 -> extends w1 w3.
Proof.
  intros [e1 H1] [e2 H2]. exists (e1 ++ e2).
  rewrite H2, H1, app_assoc. reflexivity.
Qed.

Lemma extends_report (text : wstring) (w : World) :
  extends w (snd (report text w)).
Proof. rewrite report_run. eexists. reflexivity. Qed.

(** The handler of the loop either reports one of its three messages and
    returns, or re-throws the exception without writing anything. *)
Lemma entry_handler_cases (e : exn) (w : World) :
  (exists text,
      In text ["Sharing violation."; "Access denied."; "File not found."] /\
      entry_handler e w = report text w)
  \/ entry_handler e w = (Throw e, w).
Proof.
  unfold entry_handler. destruct (as_hadesmem_error e) as [ptr|].
  - destruct (code_is ptr ERROR_SHARING_VIOLATION).
    { left. eexists. split; [|reflexivity]. simpl. auto. }
    destruct (code_is ptr ERROR_ACCESS_DENIED).
    { left. eexists. split; [|reflexivity]. simpl. auto. }
    destruct (code_is ptr ERROR_FILE_NOT_FOUND).
    { left. eexists. split; [|reflexivity]. simpl. auto. }
    right. reflexivity.
  - right. reflexivity.
Qed.

Lemma entry_handler_extends (e : exn) (w : World) r w' :
  entry_handler e w = (r, w') -> extends w w' /\ r <> OutOfFuel.
Proof.
  destruct (entry_handler_cases e w) as [(text & _ & ->) | ->].
  - rewrite report_run. intros H. injection H as <- <-.
    split; [eexists; reflexivity | discriminate].
  - intros H. injection H as <- <-. split; [apply extends_refl | discriminate].
Qed.

(** The admission loop returns only after an accepted call, and never
    throws. *)
Lemma submit_outcome (env : Env) (task : Task) (fuel : nat) :
  forall (w : World) r w',
    submit env fuel task w = (r, w') ->
    extends w w' /\
    match r with
    | Ret _ => exists k, trace w' = trace w ++ rounds task k
    | Throw _ => False
    | OutOfFuel => True
    end.
Proof.
  induction fuel as [|fuel IH]; intros w r w' H.
  - injection H as <- <-. split; [apply extends_refl | exact I].
  - revert H. cbn [submit]. run_walk.
    destruct (pool_accepts env (queue_calls w)) eqn:Hacc; cbn [negb].
    + intros H. injection H as <- <-. cbn [trace]. norm_trace.
      split; [eexists; reflexivity | exists 0%nat; reflexivity].
    + intros H. apply IH in H. destruct H as [[evs Hext] Hr].
      cbn [trace] in Hext, Hr. split.
      * eexists. rewrite Hext, <- !app_assoc. reflexivity.
      * destruct r; try exact Hr. destruct Hr as [k Hk]. exists (S k).
        rewrite Hk, <- !app_assoc. reflexivity.
Qed.

Section WalkExtends.
Variables (env : Env) (rec : wstring -> M unit).
Hypothesis rec_extends :
  forall p w r w', rec p w = (r, w') -> extends w w'.

Lemma entry_guarded_extends (fuel : nat) (cur_path : wstring) (w : World) r w' :
  entry_guarded env rec fuel cur_path w = (r, w') -> extends w w'.
Proof.
  unfold entry_guarded, IsDirectory, IsSymlink. unfold bind at 1.
  destruct (os_IsDirectory env cur_path) as [[|]|e]; cbn [call ret throw].
  - unfold bind at 1.
    destruct (os_IsSymlink env cur_path) as [[|]|e]; cbn [call ret throw].
    + rewrite report_run. intros H. injection H as <- <-. eexists. reflexivity.
    + apply rec_extends.
    + intros H. injection H as <- <-. apply extends_refl.
  - intros H. apply submit_outcome in H. apply H.
  - intros H. injection H as <- <-. apply extends_refl.
Qed.

Lemma dump_entry_extends (fuel : nat) (path_real cur_file : wstring)
    (w : World) r w' :
  dump_entry env rec fuel path_real cur_file w = (r, w') -> extends w w'.
Proof.
  unfold dump_entry. destruct (_ || _).
  - intros H. injection H as <- <-. apply extends_refl.
  - unfold bind at 1, announce_entry. rewrite report_run. unfold try_catch.
    destruct (entry_guarded _ _ _ _ _) as [r1 w1] eqn:Hguard.
    apply entry_guarded_extends in Hguard.
    assert (Hann : extends w w1).
    { eapply extends_trans; [|exact Hguard]. eexists. reflexivity. }
    destruct r1 as [[]|e|].
    + intros H. injection H as <- <-. exact Hann.
    + intros H. apply entry_handler_extends in H.
      eapply extends_trans; [exact Hann | apply H].
    + intros H. injection H as <- <-. exact Hann.
Qed.

Lemma dump_entries_extends (fuel : nat) (path_real : wstring)
    (entries : list wstring) :
  forall (w : World) r w',
    dump_entries env rec fuel path_real entries w = (r, w') -> extends w w'.
Proof.
  induction entries as [|cur_file more IH]; intros w r w'.
  - intros H. injection H as <- <-. apply extends_refl.
  - cbn [dump_entries]. unfold bind at 1.
    destruct (dump_entry _ _ _ _ _ _) as [r1 w1] eqn:Hentry.
    apply dump_entry_extends in Hentry.
    destruct r1 as [[]|e|].
    + intros H. apply IH in H. eapply extends_trans; eassumption.
    + intros H. injection H as <- <-. exact Hentry.
    + intros H. injection H as <- <-. exact Hentry.
Qed.

End WalkExtends.

(** A walk that gets going writes its "Entering dir" line first. *)
Lemma DumpDir_announces (env : Env) (fuel : nat) :
  forall (path : wstring) (w : World) r w',
    DumpDir env fuel path w = (r, w') ->
    extends w w' /\
    (fuel <> O ->
     exists evs,
       trace w' = trace w ++
         [WriteNewline; WriteNormal (entering_dir_message path)] ++ evs).
Proof.
  induction fuel as [|fuel IH]; intros path w r w' H.
  - injection H as <- <-. split; [apply extends_refl | congruence].
  - assert (Hgoal : exists evs,
       trace w' = trace w ++
         [WriteNewline; WriteNormal (entering_dir_message path)] ++ evs).
    { revert H.
      destruct (os_FindFirstFileW env (real_path path +++ "\*"))
        as [code | first rest end_error] eqn:Hfind.
      - rewrite (DumpDir_invalid _ _ _ _ _ Hfind).
        unfold announce_dir. rewrite report_run. cbn [snd].
        destruct (code =? ERROR_FILE_NOT_FOUND);
          [|destruct (code =? ERROR_ACCESS_DENIED)].
        + rewrite report_run. intros H. injection H as <- <-. cbn [trace].
          rewrite <- app_assoc. eexists. reflexivity.
        + rewrite report_run. intros H. injection H as <- <-. cbn [trace].
          rewrite <- app_assoc. eexists. reflexivity.
        + intros H. injection H as <- <-. cbn [trace]. exists [].
          reflexivity.
      - rewrite (DumpDir_valid _ _ _ _ _ _ _ Hfind).
        unfold announce_dir. rewrite report_run. cbn [snd]. unfold bind at 1.
        destruct (dump_entries _ _ _ _ _ _) as [r1 w1] eqn:Hloop.
        apply dump_entries_extends in Hloop;
          [|intros p wa ra wb Hrec; apply (IH _ _ _ _ Hrec)].
        destruct Hloop as [evs Hloop]. cbn [trace] in Hloop.
        unfold finish_enumeration.
        destruct r1 as [[]|e|]; [destruct (end_error =? ERROR_NO_MORE_FILES)|..];
          intros H; injection H as <- <-; rewrite Hloop, <- app_assoc;
          eexists; reflexivity. }
    split; [|intros _; exact Hgoal].
    destruct Hgoal as [evs Hevs]. eexists. exact Hevs.
Qed.

Lemma DumpDir_extends (env : Env) (fuel : nat) (path : wstring) (w : World) r w' :
  DumpDir env fuel path w = (r, w') -> extends w w'.
Proof. intros H. apply (DumpDir_announces _ _ _ _ _ _ H). Qed.

Lemma DumpDir_started (env : Env) (fuel : nat) (path : wstring) (w : World) r w' :
  DumpDir env fuel path w = (r, w') -> r <> OutOfFuel ->
  exists evs,
    trace w' = trace w ++
      [WriteNewline; WriteNormal (entering_dir_message path)] ++ evs.
Proof.
  intros H Hr. apply (DumpDir_announces _ _ _ _ _ _ H).
  intros ->. apply Hr. injection H as <- _. reflexivity.
Qed.

(** ** What happens to each enumerated entry *)

Lemma dump_entry_dot (env : Env) (rec : wstring -> M unit) (fuel : nat)
    (path_real cur_file : wstring) (w : World) :
  is_dot_entry cur_file = true ->
  dump_entry env rec fuel path_real cur_file w = (Ret tt, w).
Proof.
  unfold is_dot_entry, dump_entry. intros ->. reflexivity.
Qed.

Lemma dump_entry_unfold (env : Env) (rec : wstring -> M unit) (fuel : nat)
    (path_real cur_file : wstring) (w : World) :
  is_dot_entry cur_file = false ->
  dump_entry env rec fuel path_real cur_file w =
    try_catch
      (entry_guarded env rec fuel (current_path_of env path_real cur_file))
      entry_handler
      (mkWorld (trace w ++
                  [WriteNewline;
                   WriteNormal (current_path_message
                                  (current_path_of env path_real cur_file))])
               (current_file_path w) (queue_calls w)).
Proof.
  unfold is_dot_entry, dump_entry. intros ->. unfold bind at 1, announce_entry.
  rewrite report_run. reflexivity.
Qed.

Lemma entry_handler_ret (e : exn) (w w1 : World) :
  entry_handler e w = (Ret tt, w1) ->
  exists text,
    In text skip_reports /\
    trace w1 = trace w ++ [WriteNewline; WriteNormal text].
Proof.
  destruct (entry_handler_cases e w) as [(text & Hin & ->) | ->].
  - rewrite report_run. intros H. injection H as <-. exists text.
    split; [right; exact Hin | reflexivity].
  - discriminate.
Qed.

Lemma dump_entry_announced (env : Env) (fuel_rec fuel : nat)
    (path_real cur_file : wstring) (w : World) r w' :
  is_dot_entry cur_file = false ->
  dump_entry env (DumpDir env fuel_rec) fuel path_real cur_file w = (r, w') ->
  exists evs,
    trace w' = trace w ++
      [WriteNewline;
       WriteNormal (current_path_message
                      (current_path_of env path_real cur_file))] ++ evs.
Proof.
  intros Hdot. rewrite (dump_entry_unfold _ _ _ _ _ _ Hdot). unfold try_catch.
  destruct (entry_guarded _ _ _ _ _) as [r1 w1] eqn:Hguard.
  apply entry_guarded_extends in Hguard;
    [|intros p wa ra wb; apply DumpDir_extends].
  destruct Hguard as [evs Hguard]. cbn [trace] in Hguard.
  destruct r1 as [[]|e|].
  - intros H. injection H as <- <-. exists evs.
    rewrite Hguard, <- app_assoc. reflexivity.
  - intros H. apply entry_handler_extends in H. destruct H as [[evs' H] _].
    exists (evs ++ evs'). rewrite H, Hguard, <- !app_assoc. reflexivity.
  - intros H. injection H as <- <-. exists evs.
    rewrite Hguard, <- app_assoc. reflexivity.
Qed.

(** An iteration that completes has recursed into the entry, or had its task
    accepted by the pool, or has reported that it skips the entry. *)
Lemma dump_entry_accounted (env : Env) (fuel_rec fuel : nat)
    (path_real cur_file : wstring) (w w1 : World) :
  is_dot_entry cur_file = false ->
  dump_entry env (DumpDir env fuel_rec) fuel path_real cur_file w = (Ret tt, w1) ->
  exists seg,
    trace w1 = trace w ++ seg /\ entry_accounted env path_real cur_file seg.
Proof.
  intros Hdot. rewrite (dump_entry_unfold _ _ _ _ _ _ Hdot).
  unfold entry_accounted.
  set (cur_path := current_path_of env path_real cur_file).
  set (wa := mkWorld _ _ _).
  assert (Hfinish : forall evs,
             trace w1 = trace wa ++ evs ->
             (In (WriteNormal (entering_dir_message cur_path)) evs \/
              In (CallQueueTask (mkTask cur_path) true) evs \/
              exists text, In text skip_reports /\ In (WriteNormal text) evs) ->
             exists seg,
               trace w1 = trace w ++ seg /\
               exists evs0,
                 seg = [WriteNewline; WriteNormal (current_path_message cur_path)]
                         ++ evs0 /\
                 (In (WriteNormal (entering_dir_message cur_path)) evs0 \/
                  In (CallQueueTask (mkTask cur_path) true) evs0 \/
                  exists text,
                    In text skip_reports /\ In (WriteNormal text) evs0)).
  { intros evs Hevs Hcase. eexists. split.
    - rewrite Hevs. subst wa. cbn [trace]. rewrite <- app_assoc. reflexivity.
    - exists evs. split; [reflexivity | exact Hcase]. }
  unfold try_catch, entry_guarded, IsDirectory, IsSymlink. unfold bind at 1.
  destruct (os_IsDirectory env cur_path) as [[|]|e]; cbn [call ret throw].
  - unfold bind at 1.
    destruct (os_IsSymlink env cur_path) as [[|]|e]; cbn [call ret throw].
    + rewrite report_run. intros H. injection H as <-.
      apply (Hfinish [WriteNewline; WriteNormal "Skipping symlink."]).
      * reflexivity.
      * right. right. exists "Skipping symlink.". simpl. auto.
    + destruct (DumpDir env fuel_rec cur_path wa) as [r2 w2] eqn:Hrec.
      destruct r2 as [[]|e|].
      * intros H. injection H as <-.
        destruct (DumpDir_started _ _ _ _ _ _ Hrec ltac:(discriminate))
          as [evs Hevs].
        apply (Hfinish _ Hevs). left. right. left. reflexivity.
      * intros H. apply entry_handler_ret in H.
        destruct H as (text & Hin & Htrace).
        destruct (DumpDir_started _ _ _ _ _ _ Hrec ltac:(discriminate))
          as [evs Hevs].
        rewrite Hevs, <- !app_assoc in Htrace.
        apply (Hfinish _ Htrace). left. right. left. reflexivity.
      * discriminate.
    + intros H. apply entry_handler_ret in H.
      destruct H as (text & Hin & Htrace).
      apply (Hfinish _ Htrace). right. right. exists text. simpl. auto.
  - destruct (submit env fuel (mkTask cur_path) wa) as [r2 w2] eqn:Hsub.
    apply submit_outcome in Hsub. destruct Hsub as [_ Hsub].
    destruct r2 as [[]|e|]; [|contradiction|discriminate].
    intros H. injection H as <-. destruct Hsub as [k Hk].
    apply (Hfinish _ Hk). right. left. apply rounds_In_accepted.
  - intros H. apply entry_handler_ret in H.
    destruct H as (text & Hin & Htrace).
    apply (Hfinish _ Htrace). right. right. exists text. simpl. auto.
Qed.

(** C7 (as amended): the dot entries are skipped without any report. When
    the loop over the enumerated names completes, the trace it added splits
    into one segment per name, empty for a dot entry and otherwise made of
    the announcement of the entry followed by its recursion, its accepted
    submission or a skip report. When the loop throws, this holds for the
    names before the one whose iteration, after announcing it, raised the
    exception that leaves the loop. *)
Theorem C7_entries_accounted
    (env : Env) (fuel_rec fuel : nat) (path_real : wstring)
    (entries : list wstring) :
  forall (w : World) r w',
    dump_entries env (DumpDir env fuel_rec) fuel path_real entries w = (r, w') ->
    (forall cur_file wd, is_dot_entry cur_file = true ->
       dump_entry env (DumpDir env fuel_rec) fuel path_real cur_file wd
       = (Ret tt, wd))
    /\ (r = Ret tt ->
        exists segs,
          trace w' = trace w ++ List.concat segs /\
          entries_accounted env path_real entries segs)
    /\ (forall e, r = Throw e ->
        exists done cur_file more w1 segs,
          entries = done ++ cur_file :: more /\
          is_dot_entry cur_file = false /\
          trace w1 = trace w ++ List.concat segs /\
          entries_accounted env path_real done segs /\
          dump_entry env (DumpDir env fuel_rec) fuel path_real cur_file w1
          = (Throw e, w') /\
          exists evs,
            trace w' = trace w1 ++
              [WriteNewline;
               WriteNormal (current_path_message
                              (current_path_of env path_real cur_file))]
              ++ evs).
Proof.
  unfold entries_accounted.
  induction entries as [|cur_file more IH]; intros w r w' Hloop.
  - injection Hloop as <- <-. split; [intros; apply dump_entry_dot; assumption|].
    split.
    + intros _. exists []. split; [rewrite app_nil_r; reflexivity | constructor].
    + discriminate.
  - split; [intros; apply dump_entry_dot; assumption|].
    revert Hloop. cbn [dump_entries]. unfold bind at 1.
    destruct (dump_entry _ _ _ _ _ _) as [r1 w1] eqn:Hentry.
    assert (Hseg : r1 = Ret tt ->
              exists seg, trace w1 = trace w ++ seg /\
                (if is_dot_entry cur_file then seg = []
                 else entry_accounted env path_real cur_file seg)).
    { intros ->. destruct (is_dot_entry cur_file) eqn:Hdot.
      - rewrite dump_entry_dot in Hentry by assumption.
        injection Hentry as <-. exists []. rewrite app_nil_r. auto.
      - eapply dump_entry_accounted; eassumption. }
    destruct r1 as [[]|e1|].
    + destruct (Hseg eq_refl) as (seg & Hw1 & Hacc). intros Hloop.
      destruct (IH _ _ _ Hloop) as (_ & Hret & Hthrow). split.
      * intros Hr. destruct (Hret Hr) as (segs & Htrace & Hall).
        exists (seg :: segs). split.
        -- cbn [List.concat]. rewrite Htrace, Hw1, <- app_assoc. reflexivity.
        -- constructor; assumption.
      * intros e Hr.
        destruct (Hthrow e Hr)
          as (done & cur & rest & w2 & segs & -> & Hdot & Htrace & Hall & Hrest).
        exists (cur_file :: done), cur, rest, w2, (seg :: segs).
        split; [reflexivity|]. split; [exact Hdot|]. split.
        -- cbn [List.concat]. rewrite Htrace, Hw1, <- app_assoc. reflexivity.
        -- split; [constructor; assumption | exact Hrest].
    + intros H. injection H as <- <-. split; [discriminate|].
      intros e He. injection He as <-.
      assert (Hdot : is_dot_entry cur_file = false).
      { destruct (is_dot_entry cur_file) eqn:Hdot; [|reflexivity].
        rewrite dump_entry_dot in Hentry by assumption. discriminate. }
      exists [], cur_file, more, w, [].
      split; [reflexivity|]. split; [exact Hdot|].
      split; [rewrite app_nil_r; reflexivity|].
      split; [constructor|]. split; [exact Hentry|].
      eapply dump_entry_announced; eassumption.
    + intros H. injection H as <- <-. split; discriminate.
Qed.

Lemma C7_entries_accounted_witness :
  exists segs,
    trace (snd (dump_entries env_cycle (DumpDir env_cycle 2) 3 "C:\d"
                  ["."; ".."; "sub"; "lnk"; "a.exe"] w0))
    = trace w0 ++ List.concat segs
    /\ entries_accounted env_cycle "C:\d"
         ["."; ".."; "sub"; "lnk"; "a.exe"] segs.
Proof.
  apply (C7_entries_accounted env_cycle 2 3 "C:\d"
           ["."; ".."; "sub"; "lnk"; "a.exe"] w0 (Ret tt)
           (snd (dump_entries env_cycle (DumpDir env_cycle 2) 3 "C:\d"
                   ["."; ".."; "sub"; "lnk"; "a.exe"] w0))).
  - vm_compute. reflexivity.
  - reflexivity.
Defined.

(** C7, counterexample: a directory whose enumeration yields "." and ".."
    is walked without error, and the only thing the walk writes is its own
    "Entering dir" line: no event accounts for either name, since accounting
    for an entry takes at least its "Current path" announcement. And an entry
    whose attributes cannot be read, with a code the handler does not know, is
    announced and then neither recursed into, nor submitted, nor reported as
    skipped: the walk throws. *)
Lemma C7_dot_entries_dropped_silently :
  os_FindFirstFileW env_dots (real_path "C:\d" +++ "\*")
    = FindValid "." [".."] ERROR_NO_MORE_FILES
  /\ DumpDir env_dots 1 "C:\d" w0 =
       (Ret tt,
        mkWorld [WriteNewline; WriteNormal (entering_dir_message "C:\d")] "" 0)
  /\ (forall cur_file seg,
       In cur_file ["."; ".."] ->
       entry_accounted env_dots (real_path "C:\d") cur_file seg ->
       ~ incl seg (trace (snd (DumpDir env_dots 1 "C:\d" w0))))
  /\ DumpDir (env_protected 87) 1 "C:\d" w0 =
       (Throw (HadesmemError "GetFileAttributes failed." (Some 87)),
        mkWorld [WriteNewline; WriteNormal (entering_dir_message "C:\d");
                 WriteNewline;
                 WriteNormal (current_path_message "C:\d\protected")] "" 0)
  /\ (forall seg,
       entry_accounted (env_protected 87) (real_path "C:\d") "protected" seg ->
       ~ incl seg (trace (snd (DumpDir (env_protected 87) 1 "C:\d" w0)))).
Proof.
  split; [reflexivity|]. split; [reflexivity|]. split; [|split; [reflexivity|]].
  - intros cur_file seg Hin (evs & -> & _) Hincl.
    specialize (Hincl (WriteNormal
                         (current_path_message
                            (current_path_of env_dots (real_path "C:\d")
                               cur_file)))
                      ltac:(right; left; reflexivity)).
    destruct Hin as [<- | [<- | []]]; vm_compute in Hincl;
      destruct Hincl as [H | [H | []]]; discriminate.
  - intros seg (evs & -> & Hcase) Hincl.
    assert (Hsub : forall e, In e evs ->
              In e (trace (snd (DumpDir (env_protected 87) 1 "C:\d" w0)))).
    { intros e He. apply Hincl. right. right. exact He. }
    destruct Hcase as [H | [H | (text & Htext & H)]]; apply Hsub in H.
    + vm_compute in H. destruct H as [H|[H|[H|[H|[]]]]]; discriminate.
    + vm_compute in H. destruct H as [H|[H|[H|[H|[]]]]]; discriminate.
    + destruct Htext as [<-|[<-|[<-|[<-|[]]]]]; vm_compute in H;
        destruct H as [H|[H|[H|[H|[]]]]]; discriminate.
Qed.

(** ** Fuel: enough of it gives the result, and more of it changes nothing *)

Lemma submit_accepts (env : Env) (task : Task) (k : nat) :
  forall (fuel : nat) (w : World),
    (k < fuel)%nat -> pool_accepts env (queue_calls w + k) = true ->
    exists w', submit env fuel task w = (Ret tt, w').
Proof.
  induction k as [|k IH]; intros fuel w Hfuel Hacc;
    (destruct fuel as [|fuel]; [lia|]); cbn [submit]; run_walk.
  - rewrite Nat.add_0_r in Hacc. rewrite Hacc. cbn [negb]. eexists. reflexivity.
  - destruct (pool_accepts env (queue_calls w)); cbn [negb].
    + eexists. reflexivity.
    + apply IH; [lia|]. cbn [queue_calls]. rewrite Nat.add_succ_r in Hacc.
      exact Hacc.
Qed.

Lemma submit_fair (env : Env) (K fuel : nat) (task : Task) (w : World) :
  pool_fair env K -> (K <= fuel)%nat ->
  exists w', submit env fuel task w = (Ret tt, w').
Proof.
  intros Hfair Hfuel. destruct (Hfair (queue_calls w)) as (k & Hk & Hacc).
  apply submit_accepts with (k := k); [lia | exact Hacc].
Qed.

Lemma submit_mono (env : Env) (task : Task) (fuel : nat) :
  forall (fuel' : nat) (w : World) r w',
    (fuel <= fuel')%nat ->
    submit env fuel task w = (r, w') -> r <> OutOfFuel ->
    submit env fuel' task w = (r, w').
Proof.
  induction fuel as [|fuel IH]; intros fuel' w r w' Hle H Hr.
  - injection H as <- <-. contradiction.
  - destruct fuel' as [|fuel']; [lia|]. revert H. cbn [submit]. run_walk.
    destruct (pool_accepts env (queue_calls w)); cbn [negb].
    + auto.
    + intros H. apply IH; [lia | exact H | exact Hr].
Qed.

Section WalkFuel.
Variables (env : Env) (rec rec' : wstring -> M unit) (fuel fuel' : nat).
Hypothesis fuel_le : (fuel <= fuel')%nat.
Hypothesis rec_mono :
  forall p w r w', rec p w = (r, w') -> r <> OutOfFuel -> rec' p w = (r, w').

Lemma entry_guarded_mono (cur_path : wstring) (w : World) r w' :
  entry_guarded env rec fuel cur_path w = (r, w') -> r <> OutOfFuel ->
  entry_guarded env rec' fuel' cur_path w = (r, w').
Proof.
  unfold entry_guarded, IsDirectory, IsSymlink. rewrite !bind_run.
  destruct (os_IsDirectory env cur_path) as [[|]|e]; cbn [call ret throw].
  - rewrite !bind_run.
    destruct (os_IsSymlink env cur_path) as [[|]|e]; cbn [call ret throw];
      auto.
  - intros H Hr. eapply submit_mono; eassumption.
  - auto.
Qed.

Lemma dump_entry_mono (path_real cur_file : wstring) (w : World) r w' :
  dump_entry env rec fuel path_real cur_file w = (r, w') -> r <> OutOfFuel ->
  dump_entry env rec' fuel' path_real cur_file w = (r, w').
Proof.
  destruct (is_dot_entry cur_file) eqn:Hdot.
  - rewrite !dump_entry_dot by assumption. auto.
  - rewrite !dump_entry_unfold by assumption. unfold try_catch.
    destruct (entry_guarded env rec _ _ _) as [r1 w1] eqn:Hguard.
    intros H Hr.
    assert (Hr1 : r1 <> OutOfFuel).
    { intros ->. injection H as <- _. contradiction. }
    rewrite (entry_guarded_mono _ _ _ _ Hguard Hr1). exact H.
Qed.

Lemma dump_entries_mono (path_real : wstring) (entries : list wstring) :
  forall (w : World) r w',
    dump_entries env rec fuel path_real entries w = (r, w') -> r <> OutOfFuel ->
    dump_entries env rec' fuel' path_real entries w = (r, w').
Proof.
  induction entries as [|cur_file more IH]; intros w r w'; [auto|].
  cbn [dump_entries]. rewrite !bind_run.
  destruct (dump_entry env rec _ _ _ _) as [r1 w1] eqn:Hentry.
  intros H Hr.
  assert (Hr1 : r1 <> OutOfFuel).
  { intros ->. injection H as <- _. contradiction. }
  rewrite (dump_entry_mono _ _ _ _ _ Hentry Hr1).
  destruct r1 as [[]|e|]; [apply IH; assumption | exact H | contradiction].
Qed.

End WalkFuel.

Lemma DumpDir_mono (env : Env) (fuel : nat) :
  forall (fuel' : nat) (path : wstring) (w : World) r w',
    (fuel <= fuel')%nat ->
    DumpDir env fuel path w = (r, w') -> r <> OutOfFuel ->
    DumpDir env fuel' path w = (r, w').
Proof.
  induction fuel as [|fuel IH]; intros fuel' path w r w' Hle H Hr.
  - injection H as <- <-. contradiction.
  - destruct fuel' as [|fuel']; [lia|]. revert H.
    destruct (os_FindFirstFileW env (real_path path +++ "\*"))
      as [code | first rest end_error] eqn:Hfind.
    + rewrite !(DumpDir_invalid _ _ _ _ _ Hfind). auto.
    + rewrite !(DumpDir_valid _ _ _ _ _ _ _ Hfind). rewrite !bind_run.
      destruct (dump_entries env (DumpDir env fuel) _ _ _ _) as [r1 w1] eqn:Hloop.
      intros H.
      assert (Hr1 : r1 <> OutOfFuel).
      { intros ->. injection H as <- _. contradiction. }
      rewrite (dump_entries_mono env (DumpDir env fuel) (DumpDir env fuel')
                 (S fuel) (S fuel') ltac:(lia)
                 ltac:(intros p wa ra wb; apply IH; lia) _ _ _ _ _ Hloop Hr1).
      exact H.
Qed.

Section WalkTerminates.
Variables (env : Env) (rec : wstring -> M unit) (K fuel : nat)
          (path_real : wstring).
Hypothesis fair : pool_fair env K.
Hypothesis fuel_enough : (K <= fuel)%nat.

Lemma dump_entry_terminates (cur_file : wstring) (w : World) :
  (is_dot_entry cur_file = false ->
   os_IsDirectory env (current_path_of env path_real cur_file) = Ok true ->
   os_IsSymlink env (current_path_of env path_real cur_file) = Ok false ->
   forall wa, fst (rec (current_path_of env path_real cur_file) wa) <> OutOfFuel) ->
  fst (dump_entry env rec fuel path_real cur_file w) <> OutOfFuel.
Proof.
  intros Hrec. destruct (is_dot_entry cur_file) eqn:Hdot.
  - rewrite dump_entry_dot by assumption. discriminate.
  - rewrite dump_entry_unfold by assumption.
    set (cur_path := current_path_of env path_real cur_file) in *.
    set (wa := mkWorld _ _ _).
    assert (Hhandler : forall e w1, fst (entry_handler e w1) <> OutOfFuel).
    { intros e w1. destruct (entry_handler e w1) as [r w2] eqn:H.
      apply entry_handler_extends in H. apply H. }
    unfold try_catch, entry_guarded, IsDirectory, IsSymlink. unfold bind at 1.
    destruct (os_IsDirectory env cur_path) as [[|]|e] eqn:Hdir;
      cbn [call ret throw].
    + unfold bind at 1.
      destruct (os_IsSymlink env cur_path) as [[|]|e] eqn:Hsym;
        cbn [call ret throw].
      * rewrite report_run. discriminate.
      * specialize (Hrec eq_refl eq_refl eq_refl wa).
        destruct (rec cur_path wa) as [[[]|e|] w2]; cbn [fst] in *.
        -- discriminate.
        -- apply Hhandler.
        -- contradiction.
      * apply Hhandler.
    + destruct (submit_fair env K fuel (mkTask cur_path) wa fair fuel_enough)
        as [w2 ->]. discriminate.
    + apply Hhandler.
Qed.

Lemma dump_entries_terminate (entries : list wstring) :
  (forall cur_file,
      In cur_file entries ->
      is_dot_entry cur_file = false ->
      os_IsDirectory env (current_path_of env path_real cur_file) = Ok true ->
      os_IsSymlink env (current_path_of env path_real cur_file) = Ok false ->
      forall wa,
        fst (rec (current_path_of env path_real cur_file) wa) <> OutOfFuel) ->
  forall w, fst (dump_entries env rec fuel path_real entries w) <> OutOfFuel.
Proof.
  induction entries as [|cur_file more IH]; intros Hrec w.
  - discriminate.
  - cbn [dump_entries]. unfold bind at 1.
    pose proof (dump_entry_terminates cur_file w
                  (Hrec cur_file (or_introl eq_refl))) as Hentry.
    destruct (dump_entry env rec fuel path_real cur_file w) as [[[]|e|] w1];
      cbn [fst] in *.
    + apply IH. intros c Hin. apply Hrec. right. exact Hin.
    + discriminate.
    + contradiction.
Qed.

End WalkTerminates.

Lemma DumpDir_terminates (env : Env) (K : nat) :
  pool_fair env K ->
  forall (d : nat) (path : wstring),
    walk_bounded env d path ->
    forall (fuel : nat) (w : World),
      (d + K <= fuel)%nat -> fst (DumpDir env fuel path w) <> OutOfFuel.
Proof.
  intros Hfair d path Hbounded.
  induction Hbounded as [d path _ IH]. intros fuel w Hfuel.
  destruct fuel as [|fuel]; [lia|].
  destruct (os_FindFirstFileW env (real_path path +++ "\*"))
    as [code | first rest end_error] eqn:Hfind.
  - rewrite (DumpDir_invalid _ _ _ _ _ Hfind).
    destruct (code =? ERROR_FILE_NOT_FOUND);
      [|destruct (code =? ERROR_ACCESS_DENIED)];
      rewrite ?report_run; discriminate.
  - rewrite (DumpDir_valid _ _ _ _ _ _ _ Hfind). unfold bind at 1.
    pose proof (dump_entries_terminate env (DumpDir env fuel) K (S fuel)
                  (real_path path) Hfair ltac:(lia) (first :: rest)) as Hloop.
    match type of Hloop with
    | ?A -> _ => assert (Hrec : A)
    end.
    { intros cur_file Hin Hdot Hdir Hsym wa.
      apply (IH first rest end_error cur_file eq_refl Hin Hdot Hdir Hsym). lia. }
    specialize (Hloop Hrec (snd (announce_dir path w))).
    destruct (dump_entries _ _ _ _ _ _) as [[[]|e|] w1]; cbn [fst] in *.
    + unfold finish_enumeration.
      destruct (end_error =? ERROR_NO_MORE_FILES); discriminate.
    + discriminate.
    + contradiction.
Qed.

(** ** Symlinks *)

(** C1 (as amended): an entry that IsDirectory reports as a directory and
    IsSymlink as a symlink is announced, reported with "Skipping symlink."
    and left alone: the iteration makes no recursive call and no call to the
    pool. Hence a walk over a tree whose real directories nest to a bounded
    depth terminates, whatever cycles its directory symlinks form: with a
    pool that never rejects K calls in a row, every amount of fuel from
    depth + K on gives one and the same result, which is not a fuel
    exhaustion. *)
Theorem C1_directory_symlinks_not_followed (env : Env) :
  (forall (rec : wstring -> M unit) (fuel : nat)
          (path_real cur_file : wstring) (w : World),
      is_dot_entry cur_file = false ->
      os_IsDirectory env (current_path_of env path_real cur_file) = Ok true ->
      os_IsSymlink env (current_path_of env path_real cur_file) = Ok true ->
      dump_entry env rec fuel path_real cur_file w =
        (Ret tt,
         mkWorld (trace w ++
                    [WriteNewline;
                     WriteNormal (current_path_message
                                    (current_path_of env path_real cur_file));
                     WriteNewline; WriteNormal "Skipping symlink."])
                 (current_file_path w) (queue_calls w)))
  /\ (forall (K d : nat) (path : wstring) (w : World),
      pool_fair env K -> walk_bounded env d path ->
      exists r w',
        r <> OutOfFuel /\
        forall fuel, (d + K <= fuel)%nat -> DumpDir env fuel path w = (r, w')).
Proof.
  split.
  - intros rec fuel path_real cur_file w Hdot Hdir Hsym.
    rewrite dump_entry_unfold by assumption.
    unfold try_catch, entry_guarded, IsDirectory, IsSymlink.
    rewrite bind_run, Hdir. cbn [call ret]. rewrite bind_run, Hsym.
    cbn [call ret]. rewrite report_run. cbn [trace current_file_path queue_calls].
    norm_trace. reflexivity.
  - intros K d path w Hfair Hbounded.
    pose proof (DumpDir_terminates env K Hfair d path Hbounded (d + K)%nat w
                  (Nat.le_refl _)) as Hterm.
    destruct (DumpDir env (d + K) path w) as [r w'] eqn:Hrun.
    exists r, w'. split; [exact Hterm|].
    intros fuel Hfuel. eapply DumpDir_mono; eassumption.
Qed.

Lemma env_cycle_pool_fair : pool_fair env_cycle 2.
Proof.
  intros n. cbn [pool_accepts env_cycle]. destruct (Nat.odd n) eqn:Hodd.
  - exists 0%nat. rewrite Nat.add_0_r. split; [lia | exact Hodd].
  - exists 1%nat. split; [lia|].
    rewrite Nat.add_1_r, Nat.odd_succ, <- Nat.negb_odd, Hodd. reflexivity.
Qed.

Lemma env_cycle_bounded : walk_bounded env_cycle 2 "C:\d".
Proof.
  constructor. intros first rest end_error cur_file Hfind Hin Hdot Hdir Hsym.
  vm_compute in Hfind. injection Hfind as <- <- <-.
  destruct Hin as [<-|[<-|[<-|[<-|[<-|[]]]]]];
    try (vm_compute in Hdot; discriminate);
    try (vm_compute in Hdir; discriminate).
  change (walk_bounded env_cycle 1 "C:\d\sub"). clear.
  constructor. intros first rest end_error cur_file Hfind Hin Hdot Hdir Hsym.
  vm_compute in Hfind. injection Hfind as <- <- <-.
  destruct Hin as [<-|[<-|[<-|[<-|[]]]]];
    try (vm_compute in Hdot; discriminate);
    try (vm_compute in Hdir; discriminate);
    try (vm_compute in Hsym; discriminate).
Qed.

Lemma C1_directory_symlinks_not_followed_witness :
  dump_entry env_cycle (DumpDir env_cycle 1) 2 "C:\d\sub" "back" w0 =
    (Ret tt,
     mkWorld [WriteNewline; WriteNormal (current_path_message "C:\d\sub\back");
              WriteNewline; WriteNormal "Skipping symlink."] "" 0)
  /\ exists r w',
       r <> OutOfFuel /\
       forall fuel, (2 + 2 <= fuel)%nat ->
                    DumpDir env_cycle fuel "C:\d" w0 = (r, w').
Proof.
  split.
  - apply (C1_directory_symlinks_not_followed env_cycle); reflexivity.
  - apply (C1_directory_symlinks_not_followed env_cycle).
    + exact env_cycle_pool_fair.
    + exact env_cycle_bounded.
Defined.

(** C1, counterexample: the entry [lnk] is a symlink to a file. IsDirectory
    answers false for it, so IsSymlink is never asked: the walker submits it
    to the pool like any plain file, and the accepted task opens it. *)
Lemma C1_file_symlink_is_submitted :
  os_IsSymlink env_cycle (current_path_of env_cycle "C:\d" "lnk") = Ok true
  /\ os_IsDirectory env_cycle (current_path_of env_cycle "C:\d" "lnk") = Ok false
  /\ dump_entry env_cycle (DumpDir env_cycle 2) 3 "C:\d" "lnk" w0 =
       (Ret tt,
        mkWorld [WriteNewline; WriteNormal (current_path_message "C:\d\lnk");
                 CallWaitForSlot; CallQueueTask (mkTask "C:\d\lnk") false;
                 CallWaitForSlot; CallQueueTask (mkTask "C:\d\lnk") true]
                "" 2)
  /\ In (CallQueueTask (mkTask "C:\d\lnk") true)
        (trace (snd (DumpDir env_cycle 4 "C:\d" w0)))
  /\ In (CallOpenFile "C:\d\lnk")
        (trace (snd (run_task env_cycle (mkTask "C:\d\lnk") w0))).
Proof.
  split; [reflexivity|]. split; [reflexivity|]. split; [reflexivity|].
  split; vm_compute; auto 30.
Qed.

(** * Further properties of [DumpFile] *)

Ltac added_events :=
  norm_trace; rewrite skipn_app, Nat.sub_diag, skipn_all; cbn [app skipn].

(** X1: the calls DumpFile makes are always an initial part of one fixed
    sequence: open, tellg, seek, two-byte read, seek, resize, full read,
    Process, PeFile, NtHeaders, DumpPeFile. No stage is skipped or reordered,
    and DumpFile never calls the pool. *)
Theorem DumpFile_calls_follow_pipeline (f : FileEnv) (path : wstring) (w : World) :
  exists rest,
    pipeline path (tellg f)
    = filter is_call (events_of (DumpFile f path) w) ++ rest.
Proof.
  unfold events_of, pipeline.
  explore_file f path; added_events; cbn [filter is_call app];
    eexists; reflexivity.
Qed.

(** X2: every file attempt ends with at most one diagnostic, a message on the
    output stream or an error on cerr; there is none exactly when DumpPeFile
    was called and returned. *)
Theorem DumpFile_one_diagnostic (f : FileEnv) (path : wstring) (w : World) :
  (List.length (filter is_diagnostic (events_of (DumpFile f path) w)) <= 1)%nat
  /\ (filter is_diagnostic (events_of (DumpFile f path) w) = [] <->
      In (CallDumpPeFile path) (events_of (DumpFile f path) w)
      /\ dump_pe_file f = Ok tt).
Proof.
  unfold events_of.
  explore_file f path; added_events; cbn [filter is_diagnostic List.length];
    (split; [lia|]); (split; [intros H; try discriminate H | intros [Hin Hok]]);
    try (split; [simpl; auto 20 | reflexivity]);
    try reflexivity;
    try discriminate Hok;
    try (exfalso; revert Hin; simpl; intuition discriminate).
Qed.



(** X4: a file that cannot be opened is reported as "Failed to open file."
    when the stream is in a failed state, and on cerr when OpenFile itself
    throws; in both cases OpenFile is the only call made. *)
Theorem DumpFile_open_failure (f : FileEnv) (path : wstring) (w : World) :
  (open_file f = Ok false ->
     DumpFile f path w =
       finished w path
         [CallOpenFile path; WriteNewline; WriteNormal "Failed to open file."]
     /\ rejection_of_report "Failed to open file." = Some EmptyOrUnreadable)
  /\ (forall e, open_file f = Raise e ->
     DumpFile f path w =
       finished w path ([CallOpenFile path] ++ caught_events path e))
  /\ (open_file f <> Ok true ->
     filter is_call (events_of (DumpFile f path) w) = [CallOpenFile path]).
Proof.
  split; [|split].
  - intros Hopen. split; [|reflexivity]. apply DumpFile_open_fails. exact Hopen.
  - intros e Hopen. apply DumpFile_open_throws. exact Hopen.
  - intros Hopen. destruct (open_file f) as [[|]|e] eqn:Heq.
    + contradiction.
    + erewrite events_of_finished by (apply DumpFile_open_fails; assumption).
      reflexivity.
    + erewrite events_of_finished by (apply DumpFile_open_throws; eassumption).
      unfold caught_events. destruct (path =? "")%string; reflexivity.
Qed.

Lemma DumpFile_open_failure_witness :
  DumpFile file_unopened "gone.exe" w0 =
    finished w0 "gone.exe"
      [CallOpenFile "gone.exe"; WriteNewline; WriteNormal "Failed to open file."]
  /\ filter is_call (events_of (DumpFile file_unopened "gone.exe") w0)
     = [CallOpenFile "gone.exe"].
Proof.
  split.
  - apply (DumpFile_open_failure file_unopened "gone.exe" w0). reflexivity.
  - apply (DumpFile_open_failure file_unopened "gone.exe" w0). discriminate.
Defined.

(** X5: a read that comes up short ends the attempt with a warning: the
    two-byte peek before anything is allocated, the full read before the PE
    library is involved. Both have the reason TruncatedRead. *)
Theorem DumpFile_short_reads (f : FileEnv) (path : wstring) (w : World) :
  open_file f = Ok true ->
  0 < tellg f -> fits_uint32 (tellg f) ->
  seekg_1 f = true ->
  (read_mz f = None ->
     DumpFile f path w =
       finished w path
         [CallOpenFile path; CallTellg; CallSeekgBeg; CallRead mz_buf 2;
          WriteNewline; WriteNormal "WARNING! Failed to read header signature."]
     /\ rejection_of_report "WARNING! Failed to read header signature."
        = Some TruncatedRead)
  /\ (read_mz f = Some ("M"%char, "Z"%char) -> seekg_2 f = true ->
      resize f = Ok tt -> read_all f = None ->
     DumpFile f path w =
       finished w path
         [CallOpenFile path; CallTellg; CallSeekgBeg; CallRead mz_buf 2;
          CallSeekgBeg; CallResize (tellg f); CallRead buf (tellg f);
          WriteNewline; WriteNormal "WARNING! Failed to read file data."]
     /\ rejection_of_report "WARNING! Failed to read file data."
        = Some TruncatedRead).
Proof.
  intros Hopen Hpos Hfits Hseek1.
  destruct (size_gate_open _ Hpos Hfits) as [Hsize Hcast].
  apply negb_false_iff in Hcast. split.
  - intros Hpeek. split; [|reflexivity]. apply DumpFile_peek_fails; assumption.
  - intros Hmz Hseek2 Hresize Hread. split; [|reflexivity].
    apply DumpFile_read_fails; assumption.
Qed.

Lemma DumpFile_short_reads_witness :
  DumpFile file_one_byte "x" w0 =
    finished w0 "x"
      [CallOpenFile "x"; CallTellg; CallSeekgBeg; CallRead mz_buf 2;
       WriteNewline; WriteNormal "WARNING! Failed to read header signature."]
  /\ DumpFile file_short_read "y" w0 =
    finished w0 "y"
      [CallOpenFile "y"; CallTellg; CallSeekgBeg; CallRead mz_buf 2;
       CallSeekgBeg; CallResize 4096; CallRead buf 4096;
       WriteNewline; WriteNormal "WARNING! Failed to read file data."].
Proof.
  split.
  - apply (DumpFile_short_reads file_one_byte "x" w0); try reflexivity.
    unfold fits_uint32; simpl; lia.
  - apply (DumpFile_short_reads file_short_read "y" w0); try reflexivity.
    unfold fits_uint32; simpl; lia.
Defined.

(** X6: when the buffer cannot be allocated, std::bad_alloc is reported as
    "WARNING! File too large." (reason AllocationFailed) with a warning for
    the current file, while any other exception of resize, such as
    std::length_error, goes to the catch-all and is written to cerr; in both
    cases the file is not read. *)
Theorem DumpFile_allocation_failure
    (f : FileEnv) (path : wstring) (w : World) (e : exn) :
  open_file f = Ok true ->
  0 < tellg f -> fits_uint32 (tellg f) ->
  seekg_1 f = true -> read_mz f = Some ("M"%char, "Z"%char) ->
  seekg_2 f = true ->
  resize f = Raise e ->
  (is_bad_alloc e = true ->
     DumpFile f path w =
       finished w path
         [CallOpenFile path; CallTellg; CallSeekgBeg; CallRead mz_buf 2;
          CallSeekgBeg; CallResize (tellg f); WriteNewline;
          WriteNormal "WARNING! File too large."; WarnUnsupported]
     /\ rejection_of_report "WARNING! File too large." = Some AllocationFailed)
  /\ (is_bad_alloc e = false ->
     DumpFile f path w =
       finished w path
         ([CallOpenFile path; CallTellg; CallSeekgBeg; CallRead mz_buf 2;
           CallSeekgBeg; CallResize (tellg f)] ++ caught_events path e))
  /\ existsb is_full_read (events_of (DumpFile f path) w) = false.
Proof.
  intros Hopen Hpos Hfits Hseek1 Hmz Hseek2 Hresize.
  destruct (size_gate_open _ Hpos Hfits) as [Hsize Hcast].
  apply negb_false_iff in Hcast.
  assert (Hbad : is_bad_alloc e = true ->
     DumpFile f path w =
       finished w path
         [CallOpenFile path; CallTellg; CallSeekgBeg; CallRead mz_buf 2;
          CallSeekgBeg; CallResize (tellg f); WriteNewline;
          WriteNormal "WARNING! File too large."; WarnUnsupported]).
  { intros He. destruct e; try discriminate He.
    apply DumpFile_bad_alloc; assumption. }
  assert (Hother : is_bad_alloc e = false ->
     DumpFile f path w =
       finished w path
         ([CallOpenFile path; CallTellg; CallSeekgBeg; CallRead mz_buf 2;
           CallSeekgBeg; CallResize (tellg f)] ++ caught_events path e))
    by (intros He; apply DumpFile_resize_throws; assumption).
  split; [intros He; split; [apply Hbad; exact He | reflexivity]|].
  split; [exact Hother|].
  destruct (is_bad_alloc e) eqn:He.
  - rewrite (events_of_finished _ _ _ _ (Hbad eq_refl)). reflexivity.
  - rewrite (events_of_finished _ _ _ _ (Hother eq_refl)).
    unfold caught_events. destruct (path =? "")%string; reflexivity.
Qed.

Lemma DumpFile_allocation_failure_witness :
  DumpFile file_no_memory "big.exe" w0 =
    finished w0 "big.exe"
      [CallOpenFile "big.exe"; CallTellg; CallSeekgBeg; CallRead mz_buf 2;
       CallSeekgBeg; CallResize 4000000000; WriteNewline;
       WriteNormal "WARNING! File too large."; WarnUnsupported]
  /\ DumpFile file_too_long "big.exe" w0 =
    finished w0 "big.exe"
      ([CallOpenFile "big.exe"; CallTellg; CallSeekgBeg; CallRead mz_buf 2;
        CallSeekgBeg; CallResize 4000000000]
         ++ caught_events "big.exe" (StdException "vector too long")).
Proof.
  assert (Hsize : 0 < 4000000000 /\ fits_uint32 4000000000)
    by (unfold fits_uint32; lia).
  destruct Hsize as [Hpos Hfits]. split.
  - apply (DumpFile_allocation_failure file_no_memory "big.exe" w0 BadAlloc);
      try assumption; reflexivity.
  - apply (DumpFile_allocation_failure file_too_long "big.exe" w0
             (StdException "vector too long"));
      try assumption; reflexivity.
Defined.

(** X7: DumpFile runs the whole sequence of calls and writes nothing exactly
    for a file that passes every stage, whose NT headers are accepted and
    whose dump returns. *)
Theorem DumpFile_dumps_exactly_accepted_files
    (f : FileEnv) (path : wstring) (w : World) :
  events_of (DumpFile f path) w = pipeline path (tellg f) <->
  passes_early_stages f /\ nt_headers_ctor f = Ok tt /\ dump_pe_file f = Ok tt.
Proof.
  split.
  - intros Hevs.
    assert (Hearly : passes_early_stages f).
    { apply (deep_parse_only_after_early_stages f path w). rewrite Hevs.
      reflexivity. }
    split; [exact Hearly|].
    destruct Hearly as (Hopen & Hpos & Hfits & Hs1 & Hmz & Hs2 & Hres
                        & [data Hread] & Hproc & Hpe).
    destruct (size_gate_open _ Hpos Hfits) as [Hsize Hcast].
    apply negb_false_iff in Hcast.
    destruct (nt_headers_ctor f) as [[]|e] eqn:Hnt.
    + split; [reflexivity|].
      destruct (dump_pe_file f) as [[]|e] eqn:Hdump; [reflexivity|].
      erewrite events_of_finished in Hevs
        by (eapply DumpFile_dump_throws; eassumption).
      unfold pipeline, caught_events in Hevs. discriminate Hevs.
    + destruct (is_std_exception e) eqn:Hstd.
      * erewrite events_of_finished in Hevs
          by (eapply DumpFile_bad_pe; eassumption).
        discriminate Hevs.
      * erewrite events_of_finished in Hevs
          by (eapply DumpFile_nt_headers_throws; eassumption).
        unfold pipeline, caught_events in Hevs. discriminate Hevs.
  - intros ((Hopen & Hpos & Hfits & Hs1 & Hmz & Hs2 & Hres & [data Hread]
             & Hproc & Hpe) & Hnt & Hdump).
    destruct (size_gate_open _ Hpos Hfits) as [Hsize Hcast].
    apply negb_false_iff in Hcast.
    erewrite events_of_finished by (eapply DumpFile_dumped; eassumption).
    reflexivity.
Qed.

Lemma DumpFile_dumps_exactly_accepted_files_witness :
  events_of (DumpFile file_image "a.exe") w0 = pipeline "a.exe" 4096.
Proof.
  apply (DumpFile_dumps_exactly_accepted_files file_image "a.exe" w0).
  unfold passes_early_stages, fits_uint32. simpl.
  repeat split; try reflexivity; try lia. exists []. reflexivity.
Defined.

(** * Further properties of [DumpDir] *)

(** ** The trailing separator *)

Lemma append_nonempty (p : wstring) (c : ascii) :
  p +++ String c EmptyString <> EmptyString.
Proof. destruct p; discriminate. Qed.

Lemma back_append (p : wstring) (c : ascii) :
  back (p +++ String c EmptyString) = Some c.
Proof.
  induction p as [|a p IH]; [reflexivity|].
  cbn [String.append back].
  destruct (p +++ String c EmptyString) eqn:E.
  - exfalso. exact (append_nonempty _ _ E).
  - exact IH.
Qed.

Lemma pop_back_append (p : wstring) (c : ascii) :
  pop_back (p +++ String c EmptyString) = p.
Proof.
  induction p as [|a p IH]; [reflexivity|].
  cbn [String.append pop_back].
  destruct (p +++ String c EmptyString) eqn:E.
  - exfalso. exact (append_nonempty _ _ E).
  - rewrite IH. reflexivity.
Qed.

Lemma pop_back_back (p : wstring) (c : ascii) :
  back p = Some c -> p = pop_back p +++ String c EmptyString.
Proof.
  induction p as [|a p IH]; [discriminate|].
  cbn [back pop_back]. destruct p as [|b p].
  - intros H. injection H as <-. reflexivity.
  - intros H. cbn [String.append]. rewrite <- (IH H). reflexivity.
Qed.

(** X8: DumpDir removes from the path exactly one trailing backslash and
    nothing else: a path to which a backslash is appended is normalised back
    to itself, and every path either has no trailing backslash and is kept,
    or is its normal form followed by one backslash. *)
Theorem real_path_strips_one_backslash (path : wstring) :
  real_path (path +++ "\") = path
  /\ ((ends_with_backslash path = false /\ real_path path = path)
      \/ path = real_path path +++ "\").
Proof.
  split.
  - unfold real_path, ends_with_backslash. rewrite back_append.
    rewrite Ascii.eqb_refl. apply pop_back_append.
  - unfold real_path, ends_with_backslash.
    destruct (back path) as [c|] eqn:Hback.
    + destruct (c =? "\")%char eqn:Hc.
      * right. apply Ascii.eqb_eq in Hc. subst c.
        apply pop_back_back. exact Hback.
      * left. split; reflexivity.
    + left. split; reflexivity.
Qed.

(** ** An invariant scheme for walks *)

Lemma entering_not_current_path (cur_path p : wstring) :
  current_path_message cur_path <> entering_dir_message p.
Proof. discriminate. Qed.

Lemma events_of_app {A} (c : M A) (w : World) (evs : list Event) :
  trace (snd (c w)) = trace w ++ evs -> events_of c w = evs.
Proof.
  intros H. unfold events_of. rewrite H, skipn_app, Nat.sub_diag, skipn_all.
  reflexivity.
Qed.

Section WalkInvariant.
Variables (env : Env) (P : list Event -> Prop).
Hypothesis P_nil : P [].
Hypothesis P_app : forall a b, P a -> P b -> P (a ++ b).
Hypothesis P_report :
  forall text, (forall p, text <> entering_dir_message p) ->
               P [WriteNewline; WriteNormal text].
Hypothesis P_enter :
  forall p, os_IsDirectory env p = Ok true -> os_IsSymlink env p = Ok false ->
            P [WriteNewline; WriteNormal (entering_dir_message p)].
Hypothesis P_round :
  forall task accepted,
    os_IsDirectory env (task_path task) = Ok false ->
    P [CallWaitForSlot; CallQueueTask task accepted].

Lemma adds_refl (w : World) : adds P w w.
Proof. exists []. rewrite app_nil_r. auto. Qed.

Lemma adds_trans (w1 w2 w3 : World) :
  adds P w1 w2 -> adds P w2 w3 -> adds P w1 w3.
Proof.
  intros (e1 & H1 & P1 & C1) (e2 & H2 & P2 & C2). exists (e1 ++ e2).
  rewrite H2, H1, app_assoc, C2, C1. auto.
Qed.

Lemma adds_report (text : wstring) (w : World) :
  (forall p, text <> entering_dir_message p) ->
  adds P w (snd (report text w)).
Proof.
  intros Htext. rewrite report_run. eexists. cbn [snd trace current_file_path].
  split; [reflexivity|]. split; [apply P_report; exact Htext | reflexivity].
Qed.

Lemma adds_handler (e : exn) (w : World) r w' :
  entry_handler e w = (r, w') -> adds P w w'.
Proof.
  destruct (entry_handler_cases e w) as [(text & Hin & ->) | ->].
  - intros H. replace w' with (snd (report text w)) by (rewrite H; reflexivity).
    apply adds_report.
    destruct Hin as [<-|[<-|[<-|[]]]]; intros p; discriminate.
  - intros H. injection H as <- <-. apply adds_refl.
Qed.

Lemma adds_submit (task : Task) (fuel : nat) :
  os_IsDirectory env (task_path task) = Ok false ->
  forall (w : World) r w', submit env fuel task w = (r, w') -> adds P w w'.
Proof.
  intros Hfile. induction fuel as [|fuel IH]; intros w r w' H.
  - injection H as <- <-. apply adds_refl.
  - revert H. cbn [submit]. run_walk.
    set (w1 := mkWorld _ _ _).
    assert (Hround : adds P w w1).
    { exists [CallWaitForSlot;
              CallQueueTask task (pool_accepts env (queue_calls w))].
      subst w1. cbn [trace current_file_path]. rewrite <- app_assoc.
      split; [reflexivity|]. split; [apply P_round; exact Hfile | reflexivity]. }
    destruct (pool_accepts env (queue_calls w)); cbn [negb].
    + intros H. injection H as <- <-. exact Hround.
    + intros H. eapply adds_trans; [exact Hround | eapply IH; exact H].
Qed.

Section Loop.
Variable rec : wstring -> M unit.
Hypothesis adds_rec :
  forall p w r w',
    os_IsDirectory env p = Ok true -> os_IsSymlink env p = Ok false ->
    rec p w = (r, w') -> adds P w w'.

Lemma adds_entry (fuel : nat) (path_real cur_file : wstring) (w : World) r w' :
  dump_entry env rec fuel path_real cur_file w = (r, w') -> adds P w w'.
Proof.
  destruct (is_dot_entry cur_file) eqn:Hdot.
  - rewrite dump_entry_dot by assumption. intros H. injection H as <- <-.
    apply adds_refl.
  - rewrite dump_entry_unfold by assumption.
    set (cur_path := current_path_of env path_real cur_file).
    set (wa := mkWorld _ _ _).
    assert (Hann : adds P w wa).
    { exists [WriteNewline; WriteNormal (current_path_message cur_path)].
      split; [reflexivity|]. split; [|reflexivity].
      apply P_report. intros p. apply entering_not_current_path. }
    assert (Hguard : forall r1 w1,
               entry_guarded env rec fuel cur_path wa = (r1, w1) ->
               adds P wa w1).
    { intros r1 w1. unfold entry_guarded, IsDirectory, IsSymlink.
      rewrite bind_run.
      destruct (os_IsDirectory env cur_path) as [[|]|e] eqn:Hdir;
        cbn [call ret throw].
      - rewrite bind_run.
        destruct (os_IsSymlink env cur_path) as [[|]|e] eqn:Hsym;
          cbn [call ret throw].
        + intros H.
          replace w1 with (snd (report "Skipping symlink." wa))
            by (rewrite H; reflexivity).
          apply adds_report. intros p. discriminate.
        + apply adds_rec; assumption.
        + intros H. injection H as <- <-. apply adds_refl.
      - apply adds_submit. exact Hdir.
      - intros H. injection H as <- <-. apply adds_refl. }
    unfold try_catch.
    destruct (entry_guarded env rec fuel cur_path wa) as [r1 w1] eqn:Hrun.
    specialize (Hguard _ _ eq_refl).
    assert (Hw1 : adds P w w1) by (eapply adds_trans; eassumption).
    destruct r1 as [[]|e|].
    + intros H. injection H as <- <-. exact Hw1.
    + intros H. eapply adds_trans; [exact Hw1 | eapply adds_handler; exact H].
    + intros H. injection H as <- <-. exact Hw1.
Qed.

Lemma adds_entries (fuel : nat) (path_real : wstring) (entries : list wstring) :
  forall (w : World) r w',
    dump_entries env rec fuel path_real entries w = (r, w') -> adds P w w'.
Proof.
  induction entries as [|cur_file more IH]; intros w r w'.
  - intros H. injection H as <- <-. apply adds_refl.
  - cbn [dump_entries]. rewrite bind_run.
    destruct (dump_entry env rec fuel path_real cur_file w) as [r1 w1] eqn:Hentry.
    apply adds_entry in Hentry.
    destruct r1 as [[]|e|].
    + intros H. eapply adds_trans; [exact Hentry | eapply IH; exact H].
    + intros H. injection H as <- <-. exact Hentry.
    + intros H. injection H as <- <-. exact Hentry.
Qed.

End Loop.

(** A walk writes its "Entering dir" line, unless it has no fuel at all, and
    then only adds events that satisfy [P]. *)
Lemma adds_DumpDir (fuel : nat) :
  forall (path : wstring) (w : World) r w',
    DumpDir env fuel path w = (r, w') ->
    current_file_path w' = current_file_path w /\
    (trace w' = trace w \/
     exists evs,
       trace w' = trace w ++
         [WriteNewline; WriteNormal (entering_dir_message path)] ++ evs
       /\ P evs).
Proof.
  induction fuel as [|fuel IH]; intros path w r w' H.
  - injection H as <- <-. auto.
  - assert (Hrec : forall p wa ra wb,
               os_IsDirectory env p = Ok true -> os_IsSymlink env p = Ok false ->
               DumpDir env fuel p wa = (ra, wb) -> adds P wa wb).
    { intros p wa ra wb Hdir Hsym Hrun.
      destruct (IH _ _ _ _ Hrun) as [Hpath [Hsame | (evs & Htrace & Hevs)]].
      - exists []. rewrite app_nil_r. auto.
      - eexists. split; [exact Htrace|]. split; [|exact Hpath].
        apply P_app; [apply P_enter; assumption | exact Hevs]. }
    set (wa := snd (announce_dir path w)).
    assert (Hrest : adds P wa w').
    { revert H.
      destruct (os_FindFirstFileW env (real_path path +++ "\*"))
        as [code | first rest end_error] eqn:Hfind.
      - rewrite (DumpDir_invalid _ _ _ _ _ Hfind). fold wa.
        destruct (code =? ERROR_FILE_NOT_FOUND);
          [|destruct (code =? ERROR_ACCESS_DENIED)].
        + intros H. replace w' with (snd (report "Directory is empty." wa))
            by (rewrite H; reflexivity).
          apply adds_report. intros p. discriminate.
        + intros H.
          replace w' with (snd (report "Access denied to directory." wa))
            by (rewrite H; reflexivity).
          apply adds_report. intros p. discriminate.
        + intros H. injection H as <- <-. apply adds_refl.
      - rewrite (DumpDir_valid _ _ _ _ _ _ _ Hfind). fold wa. rewrite bind_run.
        destruct (dump_entries _ _ _ _ _ _) as [r1 w1] eqn:Hloop.
        apply (adds_entries _ Hrec) in Hloop. unfold finish_enumeration.
        destruct r1 as [[]|e|]; [destruct (end_error =? ERROR_NO_MORE_FILES)|..];
          intros H; injection H as <- <-; exact Hloop. }
    destruct Hrest as (evs & Htrace & Hevs & Hpath).
    subst wa. unfold announce_dir in *. rewrite report_run in *.
    cbn [snd trace current_file_path] in *. split; [exact Hpath|].
    right. exists evs. rewrite Htrace, <- app_assoc. auto.
Qed.

End WalkInvariant.

(** ** What a walk does and does not do *)

Lemma length_append (a b : wstring) :
  String.length (a +++ b) = (String.length a + String.length b)%nat.
Proof. induction a as [|c a IH]; cbn; [reflexivity | rewrite IH; reflexivity]. Qed.

Lemma append_inv_tail (s : wstring) :
  forall p q : wstring, p +++ s = q +++ s -> p = q.
Proof.
  induction p as [|a p IH]; intros [|b q] H.
  - reflexivity.
  - exfalso. apply (f_equal String.length) in H.
    rewrite !length_append in H. cbn [String.length] in H. lia.
  - exfalso. apply (f_equal String.length) in H.
    rewrite !length_append in H. cbn [String.length] in H. lia.
  - cbn [String.append] in H. injection H as <- H. f_equal. apply IH. exact H.
Qed.

Lemma entering_dir_message_inj (p q : wstring) :
  entering_dir_message p = entering_dir_message q -> p = q.
Proof.
  unfold entering_dir_message, dquote. cbn [String.append]. intros H.
  repeat (injection H as H).
  apply (append_inv_tail _ _ _ H).
Qed.

Lemma pool_protocol_app_bounded (n : nat) :
  forall a b : list Event,
    (List.length a <= n)%nat ->
    pool_protocol a = true -> pool_protocol b = true ->
    pool_protocol (a ++ b) = true.
Proof.
  induction n as [|n IH]; intros a b Hlen Ha Hb.
  - destruct a; [exact Hb | cbn in Hlen; lia].
  - destruct a as [|e a]; [exact Hb|].
    destruct e; cbn [pool_protocol app List.length] in *;
      try discriminate Ha;
      try (apply IH; [lia | assumption | assumption]).
    destruct a as [|e a]; [discriminate Ha|].
    destruct e; cbn [pool_protocol app List.length] in *;
      try discriminate Ha.
    apply IH; [lia | assumption | assumption].
Qed.

Lemma pool_protocol_app (a b : list Event) :
  pool_protocol a = true -> pool_protocol b = true ->
  pool_protocol (a ++ b) = true.
Proof. apply (pool_protocol_app_bounded (List.length a)). apply Nat.le_refl. Qed.

Lemma walk_events (env : Env) (P : list Event -> Prop)
    (fuel : nat) (path : wstring) (w : World) :
  P [] ->
  (forall evs, P evs ->
     P ([WriteNewline; WriteNormal (entering_dir_message path)] ++ evs)) ->
  (current_file_path (snd (DumpDir env fuel path w)) = current_file_path w /\
   (trace (snd (DumpDir env fuel path w)) = trace w \/
    exists evs,
      trace (snd (DumpDir env fuel path w)) = trace w ++
        [WriteNewline; WriteNormal (entering_dir_message path)] ++ evs
      /\ P evs)) ->
  P (events_of (DumpDir env fuel path) w).
Proof.
  intros Hnil Hhead [_ [Hsame | (evs & Htrace & Hevs)]].
  - rewrite (events_of_app _ _ []); [exact Hnil|].
    rewrite app_nil_r. exact Hsame.
  - rewrite (events_of_app _ _ _ Htrace). apply Hhead. exact Hevs.
Qed.

(** X9: a walk only writes to the output stream and calls the pool: it never
    opens, measures, reads or parses a file itself, and it leaves the current
    file path as it found it. *)
Theorem DumpDir_leaves_files_to_the_tasks
    (env : Env) (fuel : nat) (path : wstring) (w : World) :
  forallb is_walker_event (events_of (DumpDir env fuel path) w) = true
  /\ current_file_path (snd (DumpDir env fuel path w)) = current_file_path w.
Proof.
  destruct (DumpDir env fuel path w) as [r w'] eqn:Hrun.
  pose proof (adds_DumpDir env (fun evs => forallb is_walker_event evs = true)
                eq_refl
                ltac:(cbv beta; intros a b Ha Hb;
                      rewrite forallb_app, Ha, Hb; reflexivity)
                ltac:(reflexivity) ltac:(reflexivity) ltac:(reflexivity)
                fuel path w r w' Hrun) as Hinv.
  split; [|apply Hinv].
  apply (walk_events env (fun evs => forallb is_walker_event evs = true)).
  - reflexivity.
  - intros evs Hevs. exact Hevs.
  - rewrite Hrun. exact Hinv.
Qed.

(** X10: over a whole walk, subdirectories included, the pool is used in
    rounds: every QueueTask call directly follows a WaitForSlot call and
    every WaitForSlot call is directly followed by a QueueTask call. *)
Theorem DumpDir_pool_protocol
    (env : Env) (fuel : nat) (path : wstring) (w : World) :
  pool_protocol (events_of (DumpDir env fuel path) w) = true.
Proof.
  destruct (DumpDir env fuel path w) as [r w'] eqn:Hrun.
  pose proof (adds_DumpDir env (fun evs => pool_protocol evs = true)
                eq_refl pool_protocol_app
                ltac:(reflexivity) ltac:(reflexivity) ltac:(reflexivity)
                fuel path w r w' Hrun) as Hinv.
  apply (walk_events env (fun evs => pool_protocol evs = true)).
  - reflexivity.
  - intros evs Hevs. exact Hevs.
  - rewrite Hrun. exact Hinv.
Qed.

Lemma walk_event_ok_invariant
    (env : Env) (fuel : nat) (path : wstring) (w : World) r w' :
  DumpDir env fuel path w = (r, w') ->
  current_file_path w' = current_file_path w /\
  (trace w' = trace w \/
   exists evs,
     trace w' = trace w ++
       [WriteNewline; WriteNormal (entering_dir_message path)] ++ evs
     /\ Forall (walk_event_ok env) evs).
Proof.
  apply (adds_DumpDir env (Forall (walk_event_ok env))).
  - constructor.
  - intros a b Ha Hb. apply Forall_app. auto.
  - intros text Htext. apply Forall_cons; [exact I|].
    apply Forall_cons; [|constructor]. intros q Hq. exfalso.
    exact (Htext q Hq).
  - intros q0 Hdir Hsym. apply Forall_cons; [exact I|].
    apply Forall_cons; [|constructor]. intros q Hq.
    apply entering_dir_message_inj in Hq. subst q. auto.
  - intros task accepted Hfile. apply Forall_cons; [exact I|].
    apply Forall_cons; [exact Hfile | constructor].
Qed.

(** X11: a walk never submits a directory: every task it offers to the pool,
    accepted or not, is for a path that IsDirectory reports not to be a
    directory. *)
Theorem DumpDir_never_submits_a_directory
    (env : Env) (fuel : nat) (path : wstring) (w : World)
    (task : Task) (accepted : bool) :
  In (CallQueueTask task accepted) (events_of (DumpDir env fuel path) w) ->
  os_IsDirectory env (task_path task) = Ok false.
Proof.
  destruct (DumpDir env fuel path w) as [r w'] eqn:Hrun.
  destruct (walk_event_ok_invariant _ _ _ _ _ _ Hrun)
    as [_ [Hsame | (evs & Htrace & Hevs)]].
  - rewrite (events_of_app _ _ []); [intros []|].
    rewrite Hrun, app_nil_r. exact Hsame.
  - rewrite (events_of_app _ _ _ ltac:(rewrite Hrun; exact Htrace)).
    intros [H | [H | Hin]]; try discriminate H.
    apply (proj1 (Forall_forall _ _) Hevs _ Hin).
Qed.

Lemma DumpDir_never_submits_a_directory_witness :
  os_IsDirectory env_cycle (task_path (mkTask "C:\d\sub\x.dll")) = Ok false.
Proof.
  apply (DumpDir_never_submits_a_directory env_cycle 4 "C:\d" w0
           (mkTask "C:\d\sub\x.dll") true).
  vm_compute. auto 40.
Defined.

(** X12: below its starting point a walk enters only what IsDirectory
    reports as a directory and IsSymlink reports not to be a symlink: no
    "Entering dir" line is ever written for a symlink, at any depth. *)
Theorem DumpDir_enters_only_real_directories
    (env : Env) (fuel : nat) (path : wstring) (w : World) (p : wstring) :
  In (WriteNormal (entering_dir_message p))
     (events_of (DumpDir env fuel path) w) ->
  p = path
  \/ (os_IsDirectory env p = Ok true /\ os_IsSymlink env p = Ok false).
Proof.
  destruct (DumpDir env fuel path w) as [r w'] eqn:Hrun.
  destruct (walk_event_ok_invariant _ _ _ _ _ _ Hrun)
    as [_ [Hsame | (evs & Htrace & Hevs)]].
  - rewrite (events_of_app _ _ []); [intros []|].
    rewrite Hrun, app_nil_r. exact Hsame.
  - rewrite (events_of_app _ _ _ ltac:(rewrite Hrun; exact Htrace)).
    intros [H | [H | Hin]]; try discriminate H.
    + left. symmetry. apply entering_dir_message_inj. congruence.
    + right. apply (proj1 (Forall_forall _ _) Hevs _ Hin p). reflexivity.
Qed.

Lemma DumpDir_enters_only_real_directories_witness :
  "C:\d\sub" = "C:\d"
  \/ (os_IsDirectory env_cycle "C:\d\sub" = Ok true
      /\ os_IsSymlink env_cycle "C:\d\sub" = Ok false).
Proof.
  apply (DumpDir_enters_only_real_directories env_cycle 4 "C:\d" w0 "C:\d\sub").
  vm_compute. auto 40.
Defined.

(** ** A directory of plain files *)

Lemma rounds_filter_accepted (task : Task) (k : nat) :
  filter is_accepted (rounds task k) = [CallQueueTask task true].
Proof. induction k as [|k IH]; [reflexivity | exact IH]. Qed.

Lemma rounds_filter_written (task : Task) (k : nat) :
  filter is_written (rounds task k) = [].
Proof. induction k as [|k IH]; [reflexivity | exact IH]. Qed.

(** X13: in a directory that holds only plain files, and with a pool that
    never rejects K calls in a row, the loop completes, announces every name
    but the dot entries in enumeration order, and has exactly one task per
    file accepted, in the same order. *)
Theorem flat_directory_submits_every_file_in_order
    (env : Env) (rec : wstring -> M unit) (K fuel : nat) (path_real : wstring)
    (entries : list wstring) (w : World) :
  pool_fair env K -> (K <= fuel)%nat ->
  (forall cur_file,
      In cur_file entries -> is_dot_entry cur_file = false ->
      os_IsDirectory env (current_path_of env path_real cur_file) = Ok false) ->
  fst (dump_entries env rec fuel path_real entries w) = Ret tt
  /\ filter is_accepted
       (events_of (dump_entries env rec fuel path_real entries) w)
     = accepted_tasks env path_real entries
  /\ filter is_written
       (events_of (dump_entries env rec fuel path_real entries) w)
     = announcements env path_real entries.
Proof.
  intros Hfair Hfuel Hfiles.
  assert (Hgen : forall w,
             exists w' evs,
               dump_entries env rec fuel path_real entries w = (Ret tt, w') /\
               trace w' = trace w ++ evs /\
               filter is_accepted evs = accepted_tasks env path_real entries /\
               filter is_written evs = announcements env path_real entries).
  { clear w. induction entries as [|cur_file more IH]; intros w.
    - exists w, []. rewrite app_nil_r. repeat split.
    - specialize (IH (fun c Hin => Hfiles c (or_intror Hin))).
      unfold accepted_tasks, announcements in *. cbn [dump_entries filter].
      rewrite bind_run. destruct (is_dot_entry cur_file) eqn:Hdot; cbn [negb].
      + rewrite dump_entry_dot by assumption. apply IH.
      + rewrite dump_entry_unfold by assumption.
        set (cur_path := current_path_of env path_real cur_file).
        set (wa := mkWorld _ _ _).
        pose proof (Hfiles cur_file (or_introl eq_refl) Hdot) as Hdir.
        fold cur_path in Hdir.
        unfold try_catch, entry_guarded, IsDirectory. rewrite bind_run, Hdir.
        cbn [call ret].
        destruct (submit_fair env K fuel (mkTask cur_path) wa Hfair Hfuel)
          as [w2 Hsub].
        rewrite Hsub.
        destruct (submit_outcome _ _ _ _ _ _ Hsub) as [_ [k Hk]].
        destruct (IH w2) as (w' & evs & Hrun & Htrace & Hacc & Hann).
        exists w',
          ([WriteNewline; WriteNormal (current_path_message cur_path)]
             ++ rounds (mkTask cur_path) k ++ evs).
        split; [exact Hrun|]. split.
        * rewrite Htrace, Hk. subst wa. cbn [trace].
          rewrite <- !app_assoc. reflexivity.
        * rewrite !filter_app, rounds_filter_accepted, rounds_filter_written,
            Hacc, Hann. cbn [map]. split; reflexivity. }
  destruct (Hgen w) as (w' & evs & Hrun & Htrace & Hacc & Hann).
  rewrite (events_of_app _ _ evs) by (rewrite Hrun; exact Htrace).
  rewrite Hrun. auto.
Qed.

Lemma env_flat_pool_fair : pool_fair env_flat 2.
Proof.
  intros n. cbn [pool_accepts env_flat]. destruct (Nat.odd n) eqn:Hodd.
  - exists 0%nat. rewrite Nat.add_0_r. split; [lia | exact Hodd].
  - exists 1%nat. split; [lia|].
    rewrite Nat.add_1_r, Nat.odd_succ, <- Nat.negb_odd, Hodd. reflexivity.
Qed.

Lemma flat_directory_submits_every_file_in_order_witness :
  filter is_accepted
    (events_of (dump_entries env_flat (DumpDir env_flat 0) 2 "C:\d"
                  ["."; ".."; "a.exe"; "b.txt"]) w0)
  = [CallQueueTask (mkTask "C:\d\a.exe") true;
     CallQueueTask (mkTask "C:\d\b.txt") true].
Proof.
  apply (flat_directory_submits_every_file_in_order env_flat
           (DumpDir env_flat 0) 2 2 "C:\d" ["."; ".."; "a.exe"; "b.txt"] w0).
  - exact env_flat_pool_fair.
  - lia.
  - reflexivity.
Defined.

(** ** Errors of a subdirectory *)

Lemma dump_entry_recurses (env : Env) (rec : wstring -> M unit) (fuel : nat)
    (path_real cur_file : wstring) (w : World) :
  is_dot_entry cur_file = false ->
  os_IsDirectory env (current_path_of env path_real cur_file) = Ok true ->
  os_IsSymlink env (current_path_of env path_real cur_file) = Ok false ->
  dump_entry env rec fuel path_real cur_file w =
    try_catch (rec (current_path_of env path_real cur_file)) entry_handler
      (snd (announce_entry (current_path_of env path_real cur_file) w)).
Proof.
  intros Hdot Hdir Hsym. rewrite dump_entry_unfold by assumption.
  unfold announce_entry. rewrite report_run. cbn [snd].
  unfold try_catch, entry_guarded, IsDirectory, IsSymlink.
  rewrite bind_run, Hdir. cbn [call ret]. rewrite bind_run, Hsym. reflexivity.
Qed.

(** X14: when the enumeration of a subdirectory cannot start, the entry
    never aborts the parent for "file not found" and "access denied", which
    the subdirectory's own walk reports, nor for "sharing violation", which
    that walk throws and the handler of the parent's loop reports; every
    other code leaves the parent's loop as the "FindFirstFile failed."
    error. *)
Theorem subdirectory_that_cannot_be_listed
    (env : Env) (fuel_rec fuel : nat) (path_real cur_file : wstring)
    (w : World) (code : DWORD) :
  let cur_path := current_path_of env path_real cur_file in
  let wa :=
    mkWorld (trace w ++ [WriteNewline; WriteNormal (current_path_message cur_path);
                         WriteNewline; WriteNormal (entering_dir_message cur_path)])
            (current_file_path w) (queue_calls w) in
  is_dot_entry cur_file = false ->
  os_IsDirectory env cur_path = Ok true ->
  os_IsSymlink env cur_path = Ok false ->
  os_FindFirstFileW env (real_path cur_path +++ "\*") = FindInvalid code ->
  dump_entry env (DumpDir env (S fuel_rec)) fuel path_real cur_file w =
    (if code =? ERROR_FILE_NOT_FOUND then report "Directory is empty."
     else if code =? ERROR_ACCESS_DENIED then report "Access denied to directory."
     else if code =? ERROR_SHARING_VIOLATION then report "Sharing violation."
     else throw (HadesmemError "FindFirstFile failed." (Some code))) wa.
Proof.
  intros cur_path wa Hdot Hdir Hsym Hfind.
  rewrite dump_entry_recurses by assumption. fold cur_path.
  unfold try_catch. rewrite (DumpDir_invalid _ _ _ _ _ Hfind).
  unfold announce_entry, announce_dir. rewrite !report_run. cbn [snd].
  cbn [trace current_file_path queue_calls]. rewrite <- app_assoc.
  cbn [app]. fold wa.
  destruct (code =? ERROR_FILE_NOT_FOUND) eqn:Hfnf.
  { rewrite report_run. reflexivity. }
  destruct (code =? ERROR_ACCESS_DENIED) eqn:Had.
  { rewrite report_run. reflexivity. }
  unfold throw at 1. unfold entry_handler.
  cbn [as_hadesmem_error code_is]. rewrite Had, Hfnf.
  destruct (code =? ERROR_SHARING_VIOLATION); reflexivity.
Qed.

Lemma subdirectory_that_cannot_be_listed_witness :
  dump_entry (env_sub_unlistable ERROR_SHARING_VIOLATION)
    (DumpDir (env_sub_unlistable ERROR_SHARING_VIOLATION) 1) 2 "C:\d" "sub" w0
  = (Ret tt,
     mkWorld [WriteNewline; WriteNormal (current_path_message "C:\d\sub");
              WriteNewline; WriteNormal (entering_dir_message "C:\d\sub");
              WriteNewline; WriteNormal "Sharing violation."] "" 0).
Proof.
  apply (subdirectory_that_cannot_be_listed
           (env_sub_unlistable ERROR_SHARING_VIOLATION) 0 2 "C:\d" "sub" w0
           ERROR_SHARING_VIOLATION); reflexivity.
Defined.

(** X15: a failure of FindNextFileW other than "no more files" is thrown
    after the names already yielded have been processed. For the directory
    the walk started from it is fatal whatever the code; for a subdirectory
    the handler of the parent's loop reports the codes sharing violation,
    access denied and file not found, adding a new line and its message to
    the trace, and goes on, so that only the other codes abort the
    parent. *)
Theorem enumeration_that_breaks_off
    (env : Env) (fuel : nat) (path : wstring) (w : World)
    (first : wstring) (rest : list wstring) (end_error : DWORD) (w1 : World) :
  os_FindFirstFileW env (real_path path +++ "\*")
    = FindValid first rest end_error ->
  dump_entries env (DumpDir env fuel) (S fuel) (real_path path) (first :: rest)
    (mkWorld (trace w ++ [WriteNewline; WriteNormal (entering_dir_message path)])
             (current_file_path w) (queue_calls w))
    = (Ret tt, w1) ->
  DumpDir env (S fuel) path w =
    (if end_error =? ERROR_NO_MORE_FILES then (Ret tt, w1)
     else (Throw (HadesmemError "FindNextFile failed." (Some end_error)), w1))
  /\ (forall (fuel_parent : nat) (path_real cur_file : wstring) (w_parent : World),
      is_dot_entry cur_file = false ->
      current_path_of env path_real cur_file = path ->
      os_IsDirectory env path = Ok true ->
      os_IsSymlink env path = Ok false ->
      w = mkWorld (trace w_parent ++
                     [WriteNewline; WriteNormal (current_path_message path)])
                  (current_file_path w_parent) (queue_calls w_parent) ->
      dump_entry env (DumpDir env (S fuel)) fuel_parent path_real cur_file w_parent
      = (if end_error =? ERROR_NO_MORE_FILES then (Ret tt, w1)
         else if end_error =? ERROR_SHARING_VIOLATION
         then (Ret tt,
               mkWorld (trace w1 ++ [WriteNewline; WriteNormal "Sharing violation."])
                       (current_file_path w1) (queue_calls w1))
         else if end_error =? ERROR_ACCESS_DENIED
         then (Ret tt,
               mkWorld (trace w1 ++ [WriteNewline; WriteNormal "Access denied."])
                       (current_file_path w1) (queue_calls w1))
         else if end_error =? ERROR_FILE_NOT_FOUND
         then (Ret tt,
               mkWorld (trace w1 ++ [WriteNewline; WriteNormal "File not found."])
                       (current_file_path w1) (queue_calls w1))
         else (Throw (HadesmemError "FindNextFile failed." (Some end_error)),
               w1))).
Proof.
  intros Hfind Hloop.
  assert (Hroot : DumpDir env (S fuel) path w =
    (if end_error =? ERROR_NO_MORE_FILES then (Ret tt, w1)
     else (Throw (HadesmemError "FindNextFile failed." (Some end_error)), w1))).
  { rewrite (DumpDir_valid _ _ _ _ _ _ _ Hfind), bind_run.
    unfold announce_dir. rewrite report_run. cbn [snd]. rewrite Hloop.
    unfold finish_enumeration.
    destruct (end_error =? ERROR_NO_MORE_FILES); reflexivity. }
  split; [exact Hroot|].
  intros fuel_parent path_real cur_file w_parent Hdot Hcur Hdir Hsym Hw.
  rewrite <- Hcur in Hdir, Hsym.
  rewrite dump_entry_recurses by assumption. rewrite Hcur.
  unfold announce_entry. rewrite report_run. cbn [snd]. rewrite <- Hw.
  unfold try_catch. rewrite Hroot.
  destruct (end_error =? ERROR_NO_MORE_FILES); [reflexivity|].
  unfold entry_handler. cbn [as_hadesmem_error code_is].
  destruct (end_error =? ERROR_SHARING_VIOLATION); [apply report_run|].
  destruct (end_error =? ERROR_ACCESS_DENIED); [apply report_run|].
  destruct (end_error =? ERROR_FILE_NOT_FOUND); [apply report_run|].
  reflexivity.
Qed.

Lemma enumeration_that_breaks_off_witness :
  DumpDir (env_sub_breaks ERROR_ACCESS_DENIED) 1 "C:\d\sub"
    (mkWorld [WriteNewline; WriteNormal (current_path_message "C:\d\sub")] "" 0)
  = (Throw (HadesmemError "FindNextFile failed." (Some ERROR_ACCESS_DENIED)),
     mkWorld [WriteNewline; WriteNormal (current_path_message "C:\d\sub");
              WriteNewline; WriteNormal (entering_dir_message "C:\d\sub")]
             "" 0)
  /\ dump_entry (env_sub_breaks ERROR_ACCESS_DENIED)
       (DumpDir (env_sub_breaks ERROR_ACCESS_DENIED) 1) 2 "C:\d" "sub" w0
     = (Ret tt,
        mkWorld [WriteNewline; WriteNormal (current_path_message "C:\d\sub");
                 WriteNewline; WriteNormal (entering_dir_message "C:\d\sub");
                 WriteNewline; WriteNormal "Access denied."] "" 0).
Proof.
  split.
  - apply (enumeration_that_breaks_off (env_sub_breaks ERROR_ACCESS_DENIED) 0
             "C:\d\sub"
             (mkWorld [WriteNewline;
                       WriteNormal (current_path_message "C:\d\sub")] "" 0)
             "." [".."] ERROR_ACCESS_DENIED
             (mkWorld [WriteNewline;
                       WriteNormal (current_path_message "C:\d\sub");
                       WriteNewline;
                       WriteNormal (entering_dir_message "C:\d\sub")] "" 0));
      reflexivity.
  - apply (enumeration_that_breaks_off (env_sub_breaks ERROR_ACCESS_DENIED) 0
             "C:\d\sub"
             (mkWorld [WriteNewline;
                       WriteNormal (current_path_message "C:\d\sub")] "" 0)
             "." [".."] ERROR_ACCESS_DENIED
             (mkWorld [WriteNewline;
                       WriteNormal (current_path_message "C:\d\sub");
                       WriteNewline;
                       WriteNormal (entering_dir_message "C:\d\sub")] "" 0));
      reflexivity.
Defined.

(** X16: the handler of the loop is for hadesmem::Error only, and only for
    one that carries a Win32 code: any other exception raised for an entry,
    and a hadesmem::Error without a code, ends the loop there with nothing
    written after the announcement of the entry, and the names that follow
    are not visited. *)
Theorem errors_without_code_end_the_loop
    (env : Env) (rec : wstring -> M unit) (fuel : nat)
    (path_real cur_file : wstring) (more : list wstring)
    (w w_err : World) (e : exn) :
  is_dot_entry cur_file = false ->
  entry_guarded env rec fuel (current_path_of env path_real cur_file)
    (snd (announce_entry (current_path_of env path_real cur_file) w))
    = (Throw e, w_err) ->
  as_hadesmem_error e = None \/ as_hadesmem_error e = Some None ->
  dump_entries env rec fuel path_real (cur_file :: more) w = (Throw e, w_err).
Proof.
  intros Hdot Hguard Hcode. cbn [dump_entries]. rewrite bind_run.
  rewrite (dump_entry_error _ _ _ _ _ _ _ _ Hdot Hguard).
  unfold entry_handler. destruct Hcode as [-> | ->]; reflexivity.
Qed.

Lemma errors_without_code_end_the_loop_witness :
  dump_entries
    (mkEnv (fun p => p) (fun _ => FindInvalid 3) (fun _ => Raise BadAlloc)
           (fun _ => Ok false) (fun _ => true) (fun _ => file_txt))
    (fun _ => ret tt) 1 "C:\d" ["a.exe"; "b.txt"] w0
  = (Throw BadAlloc, snd (announce_entry "C:\d\a.exe" w0)).
Proof.
  apply errors_without_code_end_the_loop.
  - reflexivity.
  - reflexivity.
  - left. reflexivity.
Defined.
